(** * joint_to_cartesian_controller: a shallow embedding and its properties

    The development follows
    [src/joint_to_cartesian_controller/src/joint_to_cartesian_controller.cpp]:
    the controller object with its members, [init], [update] and the body of
    the adapter thread started by [init].  ROS, urdf, kdl_parser and KDL are
    external collaborators and appear as the fields of one interface
    ([Externals]); the mutex, the parameter server and the trace of
    externally visible operations are modelled explicitly. *)

From Stdlib Require Import ZArith Lia.
From stdpp Require Import base option strings list gmap.

Local Open Scope Z_scope.
Local Open Scope string_scope.
Local Open Scope list_scope.

(** ** Time *)

(** [ros::Time] and [ros::Duration], both counted in nanoseconds. *)
Definition Time : Type := Z.
Definition Duration : Type := Z.

(** [ros::Rate]: built from a frequency in Hz; [expectedCycleTime] is the
    period [1 / frequency]. *)
Record Rate := { rate_frequency : Z }.

Definition expectedCycleTime (r : Rate) : Duration :=
  1000000000 / rate_frequency r.

(** ** The parameter server *)

#[warnings="-register-all"]
Inductive XmlRpcValue :=
| TypeString (s : string)
| TypeInt (z : Z)
| TypeBoolean (b : bool)
| TypeArray (l : list XmlRpcValue).

(** [ros::NodeHandle]: its namespace and the parameters it resolves. *)
Record NodeHandle := {
  nh_namespace : string;
  nh_params : gmap string XmlRpcValue
}.

Definition getNamespace (nh : NodeHandle) : string := nh_namespace nh.

(** [nh.getParam(key, std::string&)]: [None] stands for the [false] return
    (key missing or not a string), in which case the output is untouched. *)
Definition getParam_string (nh : NodeHandle) (key : string) : option string :=
  match nh_params nh !! key with
  | Some (TypeString s) => Some s
  | _ => None
  end.

Definition xml_string (v : XmlRpcValue) : option string :=
  match v with TypeString s => Some s | _ => None end.

(** [nh.getParam(key, std::vector<std::string>&)]. *)
Definition getParam_strings (nh : NodeHandle) (key : string)
  : option (list string) :=
  match nh_params nh !! key with
  | Some (TypeArray l) => mapM xml_string l
  | _ => None
  end.

(** ** The hardware interface *)

(** [hardware_interface::JointStateHandle]: the joint's name and the place
    where the hardware keeps that joint's state. *)
Record JointStateHandle := { h_name : string; h_slot : nat }.

(** [hardware_interface::JointStateInterface]: the registered handles. *)
Definition getHandle (hw : gmap string JointStateHandle) (name : string)
  : option JointStateHandle := hw !! name.

(** ** Threads and the mutex *)

Inductive Thread := Outer | Inner.

Global Instance Thread_eq_dec : EqDecision Thread.
Proof. solve_decision. Defined.

(** The operations of [std::mutex]. *)
Inductive MutexOp :=
| MLock
| MTryLock (acquired : bool)
| MUnlock.

Inductive Severity := Warn | Error.

Inductive Exception :=
| runtime_error (what : string)
| HardwareInterfaceException (what : string).

(** Why a computation stopped before its end. *)
Inductive Stop :=
| Throw (e : Exception)
| WouldBlock
| NullDeref.

Inductive Outcome (A : Type) :=
| Done (a : A)
| Stopped (s : Stop).
Arguments Done {A} a.
Arguments Stopped {A} s.

(** ** External collaborators *)

Class Externals := {
  scalar : Type;
  scalar_zero : scalar;
  urdf_Model : Type;
  KDL_Tree : Type;
  KDL_Chain : Type;
  KDL_Rotation : Type;
  Chain_empty : KDL_Chain;
  (** [urdf::Model::initString] *)
  initString : string -> option urdf_Model;
  (** [kdl_parser::treeFromUrdfModel] *)
  treeFromUrdfModel : urdf_Model -> option KDL_Tree;
  (** [KDL::Tree::getChain (root, tip, chain)] *)
  getChain : KDL_Tree -> string -> string -> option KDL_Chain;
  (** [KDL::ChainFkSolverPos_recursive::JntToCart]: the frame left in the
      output argument, position and rotation. *)
  JntToCart : KDL_Chain -> list scalar -> (scalar * scalar * scalar) * KDL_Rotation;
  (** [KDL::Rotation::GetQuaternion (x, y, z, w)] *)
  GetQuaternion : KDL_Rotation -> scalar * scalar * scalar * scalar;
  (** [controller_manager::ControllerManager]: its state, its constructor
      and one [update (time, period)], which yields the new state and, for
      each command handle of the robot it drives, the new command. *)
  ControllerManager : Type;
  ControllerManager_new : NodeHandle -> ControllerManager;
  ControllerManager_update :
    Time -> Duration -> list (scalar * scalar * scalar) -> ControllerManager ->
    ControllerManager * (nat -> scalar -> scalar)
}.

Section Controller.
Context `{E : Externals}.

(** Position, velocity and effort of one joint. *)
Definition JointState : Type := scalar * scalar * scalar.

Definition JointState_zero : JointState :=
  (scalar_zero, scalar_zero, scalar_zero).

(** [KDL::Frame] *)
Record Frame := { p : scalar * scalar * scalar; M : KDL_Rotation }.

Definition solve_fk (chain : KDL_Chain) (q : list scalar) : Frame :=
  {| p := fst (JntToCart chain q); M := snd (JntToCart chain q) |}.

(** ** Messages *)

Record Header := { seq : Z; stamp : Time; frame_id : string }.

Record Pose := {
  position : scalar * scalar * scalar;
  orientation : scalar * scalar * scalar * scalar
}.

(** [geometry_msgs::PoseStamped] *)
Record PoseStamped := { header : Header; pose : Pose }.

(** [ros::Publisher] as returned by [advertise]. *)
Record Publisher := { pub_topic : string; pub_queue_size : Z }.

(** ** The adapter *)

(** Modelled from the spec: the class [JointControllerAdapter] is declared
    and defined outside the source at hand.  It is built from the joint
    state handles, keeps the observation of the nested controller stack and
    one joint target per handle, the outputs of the loaded controllers. *)
Record JointControllerAdapter := {
  a_handles : list JointStateHandle;
  a_states : list JointState;
  a_cmd : list scalar
}.

(** Modelled from the spec: the constructor of the adapter,
    [construct (handles, namespace)]. *)
Definition JointControllerAdapter_new (handles : list JointStateHandle)
  (nh : NodeHandle) : JointControllerAdapter :=
  {| a_handles := handles;
     a_states := replicate (length handles) JointState_zero;
     a_cmd := replicate (length handles) scalar_zero |}.

(** Modelled from the spec: [JointControllerAdapter::read], which reads
    the current joint state from the hardware interface into the
    observation of the internal controller stack. *)
Definition JointControllerAdapter_read (joints : list JointState)
  (a : JointControllerAdapter) : JointControllerAdapter :=
  {| a_handles := a_handles a;
     a_states := map (fun h => default JointState_zero (joints !! h_slot h))
                     (a_handles a);
     a_cmd := a_cmd a |}.

(** Modelled from the spec: [JointControllerAdapter::write], which
    overwrites the joint vector it is given with the joint targets the
    stack computed. *)
Definition JointControllerAdapter_write (a : JointControllerAdapter)
  (positions : list scalar) : list scalar := a_cmd a.

(** ** The controller object *)

Record JointToCartesianController := {
  m_robot_base_link : string;
  m_end_effector_link : string;
  m_target_frame_topic : string;
  m_pose_publisher : option Publisher;
  m_robot_chain : KDL_Chain;
  m_joint_names : list string;
  m_joint_state_handles : list JointStateHandle;
  m_positions : list scalar;
  m_velocities : list scalar;
  m_controller_adapter : option JointControllerAdapter;
  m_controller_manager : option ControllerManager;
  m_adapter_thread : bool;
  m_fk_solver : option KDL_Chain;
  m_mutex : option Thread
}.

(** [JointToCartesianController::JointToCartesianController()] *)
Definition JointToCartesianController_new : JointToCartesianController :=
  {| m_robot_base_link := "";
     m_end_effector_link := "";
     m_target_frame_topic := "";
     m_pose_publisher := None;
     m_robot_chain := Chain_empty;
     m_joint_names := [];
     m_joint_state_handles := [];
     m_positions := [];
     m_velocities := [];
     m_controller_adapter := None;
     m_controller_manager := None;
     m_adapter_thread := false;
     m_fk_solver := None;
     m_mutex := None |}.

Definition set_robot_base_link v (c : JointToCartesianController) :=
  {| m_robot_base_link := v;
     m_end_effector_link := m_end_effector_link c;
     m_target_frame_topic := m_target_frame_topic c;
     m_pose_publisher := m_pose_publisher c;
     m_robot_chain := m_robot_chain c;
     m_joint_names := m_joint_names c;
     m_joint_state_handles := m_joint_state_handles c;
     m_positions := m_positions c;
     m_velocities := m_velocities c;
     m_controller_adapter := m_controller_adapter c;
     m_controller_manager := m_controller_manager c;
     m_adapter_thread := m_adapter_thread c;
     m_fk_solver := m_fk_solver c;
     m_mutex := m_mutex c |}.

Definition set_end_effector_link v (c : JointToCartesianController) :=
  {| m_robot_base_link := m_robot_base_link c;
     m_end_effector_link := v;
     m_target_frame_topic := m_target_frame_topic c;
     m_pose_publisher := m_pose_publisher c;
     m_robot_chain := m_robot_chain c;
     m_joint_names := m_joint_names c;
     m_joint_state_handles := m_joint_state_handles c;
     m_positions := m_positions c;
     m_velocities := m_velocities c;
     m_controller_adapter := m_controller_adapter c;
     m_controller_manager := m_controller_manager c;
     m_adapter_thread := m_adapter_thread c;
     m_fk_solver := m_fk_solver c;
     m_mutex := m_mutex c |}.

Definition set_target_frame_topic v (c : JointToCartesianController) :=
  {| m_robot_base_link := m_robot_base_link c;
     m_end_effector_link := m_end_effector_link c;
     m_target_frame_topic := v;
     m_pose_publisher := m_pose_publisher c;
     m_robot_chain := m_robot_chain c;
     m_joint_names := m_joint_names c;
     m_joint_state_handles := m_joint_state_handles c;
     m_positions := m_positions c;
     m_velocities := m_velocities c;
     m_controller_adapter := m_controller_adapter c;
     m_controller_manager := m_controller_manager c;
     m_adapter_thread := m_adapter_thread c;
     m_fk_solver := m_fk_solver c;
     m_mutex := m_mutex c |}.

Definition set_pose_publisher v (c : JointToCartesianController) :=
  {| m_robot_base_link := m_robot_base_link c;
     m_end_effector_link := m_end_effector_link c;
     m_target_frame_topic := m_target_frame_topic c;
     m_pose_publisher := v;
     m_robot_chain := m_robot_chain c;
     m_joint_names := m_joint_names c;
     m_joint_state_handles := m_joint_state_handles c;
     m_positions := m_positions c;
     m_velocities := m_velocities c;
     m_controller_adapter := m_controller_adapter c;
     m_controller_manager := m_controller_manager c;
     m_adapter_thread := m_adapter_thread c;
     m_fk_solver := m_fk_solver c;
     m_mutex := m_mutex c |}.

Definition set_robot_chain v (c : JointToCartesianController) :=
  {| m_robot_base_link := m_robot_base_link c;
     m_end_effector_link := m_end_effector_link c;
     m_target_frame_topic := m_target_frame_topic c;
     m_pose_publisher := m_pose_publisher c;
     m_robot_chain := v;
     m_joint_names := m_joint_names c;
     m_joint_state_handles := m_joint_state_handles c;
     m_positions := m_positions c;
     m_velocities := m_velocities c;
     m_controller_adapter := m_controller_adapter c;
     m_controller_manager := m_controller_manager c;
     m_adapter_thread := m_adapter_thread c;
     m_fk_solver := m_fk_solver c;
     m_mutex := m_mutex c |}.

Definition set_joint_names v (c : JointToCartesianController) :=
  {| m_robot_base_link := m_robot_base_link c;
     m_end_effector_link := m_end_effector_link c;
     m_target_frame_topic := m_target_frame_topic c;
     m_pose_publisher := m_pose_publisher c;
     m_robot_chain := m_robot_chain c;
     m_joint_names := v;
     m_joint_state_handles := m_joint_state_handles c;
     m_positions := m_positions c;
     m_velocities := m_velocities c;
     m_controller_adapter := m_controller_adapter c;
     m_controller_manager := m_controller_manager c;
     m_adapter_thread := m_adapter_thread c;
     m_fk_solver := m_fk_solver c;
     m_mutex := m_mutex c |}.

Definition set_joint_state_handles v (c : JointToCartesianController) :=
  {| m_robot_base_link := m_robot_base_link c;
     m_end_effector_link := m_end_effector_link c;
     m_target_frame_topic := m_target_frame_topic c;
     m_pose_publisher := m_pose_publisher c;
     m_robot_chain := m_robot_chain c;
     m_joint_names := m_joint_names c;
     m_joint_state_handles := v;
     m_positions := m_positions c;
     m_velocities := m_velocities c;
     m_controller_adapter := m_controller_adapter c;
     m_controller_manager := m_controller_manager c;
     m_adapter_thread := m_adapter_thread c;
     m_fk_solver := m_fk_solver c;
     m_mutex := m_mutex c |}.

Definition set_positions v (c : JointToCartesianController) :=
  {| m_robot_base_link := m_robot_base_link c;
     m_end_effector_link := m_end_effector_link c;
     m_target_frame_topic := m_target_frame_topic c;
     m_pose_publisher := m_pose_publisher c;
     m_robot_chain := m_robot_chain c;
     m_joint_names := m_joint_names c;
     m_joint_state_handles := m_joint_state_handles c;
     m_positions := v;
     m_velocities := m_velocities c;
     m_controller_adapter := m_controller_adapter c;
     m_controller_manager := m_controller_manager c;
     m_adapter_thread := m_adapter_thread c;
     m_fk_solver := m_fk_solver c;
     m_mutex := m_mutex c |}.

Definition set_velocities v (c : JointToCartesianController) :=
  {| m_robot_base_link := m_robot_base_link c;
     m_end_effector_link := m_end_effector_link c;
     m_target_frame_topic := m_target_frame_topic c;
     m_pose_publisher := m_pose_publisher c;
     m_robot_chain := m_robot_chain c;
     m_joint_names := m_joint_names c;
     m_joint_state_handles := m_joint_state_handles c;
     m_positions := m_positions c;
     m_velocities := v;
     m_controller_adapter := m_controller_adapter c;
     m_controller_manager := m_controller_manager c;
     m_adapter_thread := m_adapter_thread c;
     m_fk_solver := m_fk_solver c;
     m_mutex := m_mutex c |}.

Definition set_controller_adapter v (c : JointToCartesianController) :=
  {| m_robot_base_link := m_robot_base_link c;
     m_end_effector_link := m_end_effector_link c;
     m_target_frame_topic := m_target_frame_topic c;
     m_pose_publisher := m_pose_publisher c;
     m_robot_chain := m_robot_chain c;
     m_joint_names := m_joint_names c;
     m_joint_state_handles := m_joint_state_handles c;
     m_positions := m_positions c;
     m_velocities := m_velocities c;
     m_controller_adapter := v;
     m_controller_manager := m_controller_manager c;
     m_adapter_thread := m_adapter_thread c;
     m_fk_solver := m_fk_solver c;
     m_mutex := m_mutex c |}.

Definition set_controller_manager v (c : JointToCartesianController) :=
  {| m_robot_base_link := m_robot_base_link c;
     m_end_effector_link := m_end_effector_link c;
     m_target_frame_topic := m_target_frame_topic c;
     m_pose_publisher := m_pose_publisher c;
     m_robot_chain := m_robot_chain c;
     m_joint_names := m_joint_names c;
     m_joint_state_handles := m_joint_state_handles c;
     m_positions := m_positions c;
     m_velocities := m_velocities c;
     m_controller_adapter := m_controller_adapter c;
     m_controller_manager := v;
     m_adapter_thread := m_adapter_thread c;
     m_fk_solver := m_fk_solver c;
     m_mutex := m_mutex c |}.

Definition set_adapter_thread v (c : JointToCartesianController) :=
  {| m_robot_base_link := m_robot_base_link c;
     m_end_effector_link := m_end_effector_link c;
     m_target_frame_topic := m_target_frame_topic c;
     m_pose_publisher := m_pose_publisher c;
     m_robot_chain := m_robot_chain c;
     m_joint_names := m_joint_names c;
     m_joint_state_handles := m_joint_state_handles c;
     m_positions := m_positions c;
     m_velocities := m_velocities c;
     m_controller_adapter := m_controller_adapter c;
     m_controller_manager := m_controller_manager c;
     m_adapter_thread := v;
     m_fk_solver := m_fk_solver c;
     m_mutex := m_mutex c |}.

Definition set_fk_solver v (c : JointToCartesianController) :=
  {| m_robot_base_link := m_robot_base_link c;
     m_end_effector_link := m_end_effector_link c;
     m_target_frame_topic := m_target_frame_topic c;
     m_pose_publisher := m_pose_publisher c;
     m_robot_chain := m_robot_chain c;
     m_joint_names := m_joint_names c;
     m_joint_state_handles := m_joint_state_handles c;
     m_positions := m_positions c;
     m_velocities := m_velocities c;
     m_controller_adapter := m_controller_adapter c;
     m_controller_manager := m_controller_manager c;
     m_adapter_thread := m_adapter_thread c;
     m_fk_solver := v;
     m_mutex := m_mutex c |}.

Definition set_mutex v (c : JointToCartesianController) :=
  {| m_robot_base_link := m_robot_base_link c;
     m_end_effector_link := m_end_effector_link c;
     m_target_frame_topic := m_target_frame_topic c;
     m_pose_publisher := m_pose_publisher c;
     m_robot_chain := m_robot_chain c;
     m_joint_names := m_joint_names c;
     m_joint_state_handles := m_joint_state_handles c;
     m_positions := m_positions c;
     m_velocities := m_velocities c;
     m_controller_adapter := m_controller_adapter c;
     m_controller_manager := m_controller_manager c;
     m_adapter_thread := m_adapter_thread c;
     m_fk_solver := m_fk_solver c;
     m_mutex := v |}.

(** ** The world the controller runs in *)

Inductive Event :=
| EvLog (sev : Severity) (msg : string)
| EvAdvertise (pub : Publisher)
| EvPublish (pub : Publisher) (msg : PoseStamped)
| EvMutex (t : Thread) (op : MutexOp)
| EvAdapterRead
| EvManagerUpdate (time : Time) (period : Duration)
| EvAdapterWrite
| EvSleep (period : Duration)
| EvSpinner (running : bool)
| EvThreadStart.

Record World := {
  self : JointToCartesianController;   (* the object behind [this] *)
  clock : Time;                        (* what [ros::Time::now()] returns *)
  ros_ok : bool;                       (* what [ros::ok()] returns *)
  joints : list JointState;            (* the joint states of the hardware *)
  trace : list Event                   (* operations performed, oldest first *)
}.

Definition with_self (c : JointToCartesianController) (w : World) : World :=
  {| self := c; clock := clock w; ros_ok := ros_ok w; joints := joints w;
     trace := trace w |}.

Definition with_trace (tr : list Event) (w : World) : World :=
  {| self := self w; clock := clock w; ros_ok := ros_ok w; joints := joints w;
     trace := tr |}.

(** ** Computations: state passing with early stop *)

Definition Prog (A : Type) : Type := World -> Outcome A * World.

Definition ret {A} (a : A) : Prog A := fun w => (Done a, w).

Definition bind {A B} (m : Prog A) (k : A -> Prog B) : Prog B :=
  fun w =>
    match m w with
    | (Done a, w') => k a w'
    | (Stopped s, w') => (Stopped s, w')
    end.

Notation "x <- m ;; k" := (bind m (fun x => k))
  (at level 100, m at next level, right associativity).
Notation "m ;; k" := (bind m (fun _ => k))
  (at level 100, right associativity).

Definition throw {A} (e : Exception) : Prog A :=
  fun w => (Stopped (Throw e), w).

Definition emit (e : Event) : Prog unit :=
  fun w => (Done tt, with_trace (trace w ++ [e]) w).

Definition this : Prog JointToCartesianController :=
  fun w => (Done (self w), w).

Definition assign (f : JointToCartesianController -> JointToCartesianController)
  : Prog unit :=
  fun w => (Done tt, with_self (f (self w)) w).

(** Dereferencing a smart pointer member. *)
Definition deref {A} (ptr : option A) : Prog A :=
  match ptr with
  | Some a => ret a
  | None => fun w => (Stopped NullDeref, w)
  end.

Definition ROS_ERROR (msg : string) : Prog unit := emit (EvLog Error msg).
Definition ROS_WARN (msg : string) : Prog unit := emit (EvLog Warn msg).

Definition Time_now : Prog Time := fun w => (Done (clock w), w).

(** [nh.advertise<geometry_msgs::PoseStamped>(topic, queue_size)] *)
Definition advertise (topic : string) (queue_size : Z) : Prog Publisher :=
  let pub := {| pub_topic := topic; pub_queue_size := queue_size |} in
  emit (EvAdvertise pub) ;; ret pub.

(** [ros::Publisher::publish]: a publisher that was never advertised drops
    the message. *)
Definition publish (pub : option Publisher) (msg : PoseStamped) : Prog unit :=
  match pub with
  | Some pb => emit (EvPublish pb msg)
  | None => ret tt
  end.

(** *** [std::mutex] *)

(** [m_mutex.lock()]: waits while another holder has the mutex. *)
Definition lock (me : Thread) : Prog unit :=
  fun w =>
    match m_mutex (self w) with
    | None =>
        (Done tt, with_trace (trace w ++ [EvMutex me MLock])
                    (with_self (set_mutex (Some me) (self w)) w))
    | Some _ => (Stopped WouldBlock, w)
    end.

(** [m_mutex.try_lock()]: never waits; says whether it got the mutex. *)
Definition try_lock (me : Thread) : Prog bool :=
  fun w =>
    match m_mutex (self w) with
    | None =>
        (Done true, with_trace (trace w ++ [EvMutex me (MTryLock true)])
                      (with_self (set_mutex (Some me) (self w)) w))
    | Some _ =>
        (Done false, with_trace (trace w ++ [EvMutex me (MTryLock false)]) w)
    end.

(** [m_mutex.unlock()] *)
Definition unlock (me : Thread) : Prog unit :=
  assign (set_mutex None) ;; emit (EvMutex me MUnlock).

(** ** The adapter thread *)

Definition frequency : Z := 100.

Definition rate : Rate := {| rate_frequency := frequency |}.

(** [m_controller_adapter->read()] *)
Definition adapter_read : Prog unit :=
  c <- this ;;
  a <- deref (m_controller_adapter c) ;;
  fun w =>
    (emit EvAdapterRead ;;
     assign (set_controller_adapter
               (Some (JointControllerAdapter_read (joints w) a)))) w.

(** [m_controller_manager->update(time, period)]: the manager was built
    over the adapter, whose command handles its controllers write. *)
Definition manager_update (time : Time) (period : Duration) : Prog unit :=
  c <- this ;;
  cm <- deref (m_controller_manager c) ;;
  a <- deref (m_controller_adapter c) ;;
  let r := ControllerManager_update time period (a_states a) cm in
  emit (EvManagerUpdate time period) ;;
  assign (set_controller_manager (Some (fst r))) ;;
  assign (set_controller_adapter
            (Some {| a_handles := a_handles a;
                     a_states := a_states a;
                     a_cmd := imap (snd r) (a_cmd a) |})).

(** [m_controller_adapter->write(m_positions)] *)
Definition adapter_write : Prog unit :=
  c <- this ;;
  a <- deref (m_controller_adapter c) ;;
  emit EvAdapterWrite ;;
  assign (set_positions (JointControllerAdapter_write a (m_positions c))).

(** [rate.sleep()] *)
Definition Rate_sleep (r : Rate) : Prog unit :=
  emit (EvSleep (expectedCycleTime r)).

(** Lines 171 to 173: up to the test of [try_lock]. *)
Definition cycle_head : Prog bool :=
  adapter_read ;;
  now <- Time_now ;;
  manager_update now (expectedCycleTime rate) ;;
  try_lock Inner.

(** Lines 175 and 176: the guarded block. *)
Definition cycle_locked : Prog unit :=
  adapter_write ;;
  unlock Inner.

(** One turn of the [while] loop of the adapter thread. *)
Definition cycle : Prog unit :=
  locked <- cycle_head ;;
  (if (locked : bool) then cycle_locked else ret tt) ;;
  Rate_sleep rate.

(** The [while (ros::ok())] loop, followed for at most [n] turns: [true]
    when the loop was left because [ros::ok()] turned false, [false] when
    it is still turning after [n] turns. *)
Fixpoint adapter_loop (n : nat) : Prog bool :=
  match n with
  | O => fun w => (Done (negb (ros_ok w)), w)
  | S n' =>
      fun w =>
        if ros_ok w then (cycle ;; adapter_loop n') w
        else (Done true, w)
  end.

(** The body of the thread started by [init]; the spinner is stopped once
    the loop is left. *)
Definition adapter_thread (n : nat) : Prog unit :=
  emit (EvSpinner true) ;;
  left_loop <- adapter_loop n ;;
  if (left_loop : bool) then emit (EvSpinner false) else ret tt.

(** ** [init] *)

Fixpoint get_handles (hw : gmap string JointStateHandle) (names : list string)
  : Prog unit :=
  match names with
  | [] => ret tt
  | name :: rest =>
      match getHandle hw name with
      | None => throw (HardwareInterfaceException name)
      | Some h =>
          assign (fun c =>
            set_joint_state_handles (m_joint_state_handles c ++ [h]) c) ;;
          get_handles hw rest
      end
  end.

Definition init (hw : gmap string JointStateHandle) (nh : NodeHandle)
  : Prog bool :=
  match getParam_string nh "/robot_description" with
  | None =>
      ROS_ERROR "Failed to load '/robot_description' from parameter server" ;;
      ret false
  | Some robot_description =>
  match getParam_string nh "robot_base_link" with
  | None =>
      ROS_ERROR ("Failed to load " +:+ getNamespace nh +:+ "/robot_base_link"
                 +:+ " from parameter server") ;;
      ret false
  | Some base =>
  assign (set_robot_base_link base) ;;
  match getParam_string nh "end_effector_link" with
  | None =>
      ROS_ERROR ("Failed to load " +:+ getNamespace nh +:+ "/end_effector_link"
                 +:+ " from parameter server") ;;
      ret false
  | Some tip =>
  assign (set_end_effector_link tip) ;;
  match getParam_string nh "target_frame_topic" with
  | None =>
      assign (set_target_frame_topic "target_frame") ;;
      c <- this ;;
      ROS_WARN ("Failed to load " +:+ getNamespace nh +:+ "/target_frame_topic"
                +:+ " from parameter server. " +:+ "Will default to: "
                +:+ getNamespace nh +:+ m_target_frame_topic c)
  | Some topic => assign (set_target_frame_topic topic)
  end ;;
  (* Publishers *)
  c <- this ;;
  pub <- advertise (m_target_frame_topic c) 10 ;;
  assign (set_pose_publisher (Some pub)) ;;
  (* Build a kinematic chain of the robot *)
  match initString robot_description with
  | None =>
      ROS_ERROR "Failed to parse urdf model from 'robot_description'" ;;
      ret false
  | Some robot_model =>
  match treeFromUrdfModel robot_model with
  | None =>
      let error := "Failed to parse KDL tree from urdf model" in
      ROS_ERROR error ;;
      throw (runtime_error error)
  | Some robot_tree =>
  c <- this ;;
  match getChain robot_tree (m_robot_base_link c) (m_end_effector_link c) with
  | None =>
      let error := "Failed to parse robot chain from urdf model. "
        +:+ "Are you sure that both your 'robot_base_link' and 'end_effector_link' exist?" in
      ROS_ERROR error ;;
      throw (runtime_error error)
  | Some chain =>
  assign (set_robot_chain chain) ;;
  (* Get names of controllable joints from the parameter server *)
  match getParam_strings nh "joints" with
  | None =>
      let error := "Failed to load " +:+ getNamespace nh +:+ "/joints"
        +:+ " from parameter server" in
      ROS_ERROR error ;;
      throw (runtime_error error)
  | Some names =>
  assign (set_joint_names names) ;;
  (* Get the joint handles to use in the control loop *)
  get_handles hw names ;;
  (* Adjust joint buffers *)
  c <- this ;;
  assign (set_positions
            (replicate (length (m_joint_state_handles c)) scalar_zero)) ;;
  assign (set_velocities
            (replicate (length (m_joint_state_handles c)) scalar_zero)) ;;
  (* Initialize controller adapter and according manager *)
  assign (set_controller_adapter
            (Some (JointControllerAdapter_new (m_joint_state_handles c) nh))) ;;
  assign (set_controller_manager (Some (ControllerManager_new nh))) ;;
  (* The adapter thread, detached *)
  assign (set_adapter_thread true) ;;
  emit EvThreadStart ;;
  (* Initialize forward kinematics solver *)
  c <- this ;;
  assign (set_fk_solver (Some (m_robot_chain c))) ;;
  ret true
  end end end end end end end.

(** ** [update] *)

(** Lines 202 to 219: the guarded block of [update]. *)
Definition update_locked : Prog unit :=
  c <- this ;;
  (* Solve forward kinematics *)
  solver <- deref (m_fk_solver c) ;;
  let frame := solve_fk solver (m_positions c) in
  (* Publish end-effector pose *)
  now <- Time_now ;;
  let target_pose :=
    {| header := {| seq := 0; stamp := now;
                    frame_id := m_robot_base_link c |};
       pose := {| position := p frame;
                  orientation := GetQuaternion (M frame) |} |} in
  publish (m_pose_publisher c) target_pose ;;
  unlock Outer.

Definition update (time : Time) (period : Duration) : Prog unit :=
  locked <- try_lock Outer ;;
  if (locked : bool) then update_locked else ret tt.

(** ** The two contexts side by side

    The outer context calls [update]; the adapter thread turns its loop.
    Each holds the mutex from a successful [try_lock] to its [unlock], so a
    run is cut where the mutex changes hands: at the test of [try_lock] and
    at the end of the guarded block.  The holder of the mutex tells where a
    context stands. *)

Inductive Label :=
| LUpdate (time : Time) (period : Duration) (* [update] is called: line 200 *)
| LUpdateLocked                             (* lines 202 to 219 *)
| LCycle                                    (* lines 171 to 173, and 178 when
                                               [try_lock] failed *)
| LCycleLocked                              (* lines 175 to 178 *)
| LClock (t : Time)                         (* time passes *)
| LJoints (js : list JointState)            (* the hardware moves *)
| LSpinner (cm : ControllerManager)         (* a callback of the spinner *)
| LShutdown.                                (* [ros::ok()] turns false *)

Definition exec {A} (m : Prog A) (w : World) : option World :=
  match m w with
  | (Done _, w') => Some w'
  | (Stopped _, _) => None
  end.

Definition holder (w : World) : option Thread := m_mutex (self w).

Definition step (l : Label) (w : World) : option World :=
  match l with
  | LUpdate time period =>
      if decide (holder w = Some Outer) then None
      else exec (try_lock Outer) w
  | LUpdateLocked =>
      if decide (holder w = Some Outer) then exec update_locked w else None
  | LCycle =>
      if decide (holder w = Some Inner) then None
      else if m_adapter_thread (self w) && ros_ok w then
        exec (locked <- cycle_head ;;
              if (locked : bool) then ret tt else Rate_sleep rate) w
      else None
  | LCycleLocked =>
      if decide (holder w = Some Inner)
      then exec (cycle_locked ;; Rate_sleep rate) w
      else None
  | LClock t =>
      Some {| self := self w; clock := t; ros_ok := ros_ok w;
              joints := joints w; trace := trace w |}
  | LJoints js =>
      Some {| self := self w; clock := clock w; ros_ok := ros_ok w;
              joints := js; trace := trace w |}
  | LSpinner cm =>
      match m_controller_manager (self w) with
      | Some _ => Some (with_self (set_controller_manager (Some cm) (self w)) w)
      | None => None
      end
  | LShutdown =>
      Some {| self := self w; clock := clock w; ros_ok := false;
              joints := joints w; trace := trace w |}
  end.

Fixpoint run (ls : list Label) (w : World) : option World :=
  match ls with
  | [] => Some w
  | l :: ls' =>
      match step l w with
      | Some w' => run ls' w'
      | None => None
      end
  end.

(** The pose messages of a trace, oldest first. *)
Fixpoint poses (tr : list Event) : list PoseStamped :=
  match tr with
  | [] => []
  | EvPublish _ msg :: tr' => msg :: poses tr'
  | _ :: tr' => poses tr'
  end.

(** The mutex operations of a trace. *)
Fixpoint mutex_ops (tr : list Event) : list MutexOp :=
  match tr with
  | [] => []
  | EvMutex _ op :: tr' => op :: mutex_ops tr'
  | _ :: tr' => mutex_ops tr'
  end.

Definition is_blocking (op : MutexOp) : bool :=
  match op with MLock => true | _ => false end.

(** The calls of [update] in a run. *)
Fixpoint outer_ticks (ls : list Label) : nat :=
  match ls with
  | [] => O
  | LUpdate _ _ :: ls' => S (outer_ticks ls')
  | _ :: ls' => outer_ticks ls'
  end.

(** ** Vocabulary of the statements *)

(** The topic [init] advertises: the configured one, or the default. *)
Definition topic_of (nh : NodeHandle) : string :=
  default "target_frame" (getParam_string nh "target_frame_topic").

Definition publisher_of (nh : NodeHandle) : Publisher :=
  {| pub_topic := topic_of nh; pub_queue_size := 10 |}.

(** What [init] has logged and advertised once the publisher exists. *)
Definition advertised (nh : NodeHandle) : list Event :=
  match getParam_string nh "target_frame_topic" with
  | None =>
      [EvLog Warn ("Failed to load " +:+ getNamespace nh +:+ "/target_frame_topic"
                   +:+ " from parameter server. " +:+ "Will default to: "
                   +:+ getNamespace nh +:+ "target_frame")]
  | Some _ => []
  end ++ [EvAdvertise (publisher_of nh)].

(** The world a successful [init] leaves, from the values it read. *)
Definition init_done (nh : NodeHandle) (base tip : string) (chain : KDL_Chain)
  (names : list string) (hs : list JointStateHandle) (w : World) : World :=
  let handles := m_joint_state_handles (self w) ++ hs in
  {| self :=
       {| m_robot_base_link := base;
          m_end_effector_link := tip;
          m_target_frame_topic := topic_of nh;
          m_pose_publisher := Some (publisher_of nh);
          m_robot_chain := chain;
          m_joint_names := names;
          m_joint_state_handles := handles;
          m_positions := replicate (length handles) scalar_zero;
          m_velocities := replicate (length handles) scalar_zero;
          m_controller_adapter := Some (JointControllerAdapter_new handles nh);
          m_controller_manager := Some (ControllerManager_new nh);
          m_adapter_thread := true;
          m_fk_solver := Some chain;
          m_mutex := m_mutex (self w) |};
     clock := clock w;
     ros_ok := ros_ok w;
     joints := joints w;
     trace := trace w ++ advertised nh ++ [EvThreadStart] |}.

(** What a failing [init] leaves alone: no thread, no solver. *)
Definition not_started (w w' : World) : Prop :=
  m_adapter_thread (self w') = m_adapter_thread (self w) /\
  m_fk_solver (self w') = m_fk_solver (self w).

(** Every path through [init], by what the parameter server, the parsers
    and the hardware interface answer. *)
Definition init_spec (hw : gmap string JointStateHandle) (nh : NodeHandle)
  (w : World) (r : Outcome bool * World) : Prop :=
  match getParam_string nh "/robot_description",
        getParam_string nh "robot_base_link",
        getParam_string nh "end_effector_link" with
  | Some desc, Some base, Some tip =>
      (exists evs, trace (snd r) = trace w ++ advertised nh ++ evs) /\
      m_pose_publisher (self (snd r)) = Some (publisher_of nh) /\
      match initString desc with
      | None => fst r = Done false /\ not_started w (snd r)
      | Some model =>
      match treeFromUrdfModel model with
      | None =>
          fst r = Stopped (Throw (runtime_error
                    "Failed to parse KDL tree from urdf model")) /\
          not_started w (snd r)
      | Some tree =>
      match getChain tree base tip with
      | None =>
          fst r = Stopped (Throw (runtime_error
                    ("Failed to parse robot chain from urdf model. "
                     +:+ "Are you sure that both your 'robot_base_link' and 'end_effector_link' exist?"))) /\
          not_started w (snd r)
      | Some chain =>
      match getParam_strings nh "joints" with
      | None =>
          fst r = Stopped (Throw (runtime_error
                    ("Failed to load " +:+ getNamespace nh +:+ "/joints"
                     +:+ " from parameter server"))) /\
          not_started w (snd r)
      | Some names =>
      match mapM (getHandle hw) names with
      | None =>
          (exists name,
             fst r = Stopped (Throw (HardwareInterfaceException name))) /\
          not_started w (snd r)
      | Some hs => r = (Done true, init_done nh base tip chain names hs w)
      end end end end end
  | _, _, _ =>
      fst r = Done false /\
      not_started w (snd r) /\
      m_pose_publisher (self (snd r)) = m_pose_publisher (self w) /\
      exists msg, trace (snd r) = trace w ++ [EvLog Error msg]
  end.

(** [init] failed: it returned [false] or left by an exception. *)
Definition init_failed (r : Outcome bool * World) : Prop :=
  fst r = Done false \/ exists e, fst r = Stopped (Throw e).

Definition fails_by_exception (r : Outcome bool * World) : Prop :=
  exists e, fst r = Stopped (Throw e).

(** The configurations in which the robot model cannot be resolved: the
    three names are there, and the description does not parse, or the tree
    cannot be built from it, or the pair of links has no chain in the
    tree. *)
Definition model_unresolved (nh : NodeHandle) : Prop :=
  exists desc base tip,
    getParam_string nh "/robot_description" = Some desc /\
    getParam_string nh "robot_base_link" = Some base /\
    getParam_string nh "end_effector_link" = Some tip /\
    match initString desc with
    | None => True
    | Some model =>
        match treeFromUrdfModel model with
        | None => True
        | Some tree => getChain tree base tip = None
        end
    end.

(** The reading of an unresolved model as a thrown exception in every
    case. *)
Definition model_failure_throws (hw : gmap string JointStateHandle)
  (nh : NodeHandle) (w : World) : Prop :=
  model_unresolved nh -> fails_by_exception (init hw nh w).


(** The message [update] builds from the controller [c], a solver over
    [chain] and the time [now]. *)
Definition target_pose_of (c : JointToCartesianController) (chain : KDL_Chain)
  (now : Time) : PoseStamped :=
  {| header := {| seq := 0; stamp := now; frame_id := m_robot_base_link c |};
     pose := {| position := p (solve_fk chain (m_positions c));
                orientation :=
                  GetQuaternion (M (solve_fk chain (m_positions c))) |} |}.

(** The adapter once [read] and the manager's [update] went over it. *)
Definition adapter_stepped (w : World) (a : JointControllerAdapter)
  (cm : ControllerManager) : JointControllerAdapter :=
  let a1 := JointControllerAdapter_read (joints w) a in
  {| a_handles := a_handles a1;
     a_states := a_states a1;
     a_cmd := imap (snd (ControllerManager_update (clock w)
                           (expectedCycleTime rate) (a_states a1) cm))
                   (a_cmd a1) |}.

Definition manager_stepped (w : World) (a : JointControllerAdapter)
  (cm : ControllerManager) : ControllerManager :=
  fst (ControllerManager_update (clock w) (expectedCycleTime rate)
         (a_states (JointControllerAdapter_read (joints w) a)) cm).

(** What [init] sets up and no step undoes: the base link, the chain and
    its solver, the publisher, and [n] entries in each joint buffer and in
    the adapter's targets. *)
Definition configured (base : string) (chain : KDL_Chain) (pub : Publisher)
  (n : nat) (c : JointToCartesianController) : Prop :=
  m_robot_base_link c = base /\
  m_robot_chain c = chain /\
  m_fk_solver c = Some chain /\
  m_pose_publisher c = Some pub /\
  length (m_positions c) = n /\
  length (m_velocities c) = n /\
  (exists a, m_controller_adapter c = Some a /\ length (a_cmd a) = n) /\
  is_Some (m_controller_manager c).

Definition pending (w : World) : nat :=
  if decide (holder w = Some Outer) then 1%nat else 0%nat.

(** A computation that never stops waiting for the mutex, and whose mutex
    operations are all other than [lock]. *)
Definition never_waits {A} (m : Prog A) (w : World) : Prop :=
  fst (m w) <> Stopped WouldBlock /\
  exists evs, trace (snd (m w)) = trace w ++ evs /\
              Forall (fun op => is_blocking op = false) (mutex_ops evs).

(** ** The rest of the source, and the vocabulary of further statements *)

(** [JointToCartesianController::starting] *)
Definition starting (time : Time) : Prog unit := ret tt.

(** [JointToCartesianController::stopping] *)
Definition stopping (time : Time) : Prog unit := ret tt.

(** The handles the loop of [init] has pushed when it ends or throws: those
    of the names before the first one the hardware interface lacks. *)
Fixpoint pushed (hw : gmap string JointStateHandle) (names : list string)
  : list JointStateHandle :=
  match names with
  | [] => []
  | name :: rest =>
      match getHandle hw name with
      | Some h => h :: pushed hw rest
      | None => []
      end
  end.

(** The first configured joint the hardware interface has no handle for. *)
Fixpoint first_missing (hw : gmap string JointStateHandle)
  (names : list string) : option string :=
  match names with
  | [] => None
  | name :: rest =>
      match getHandle hw name with
      | Some _ => first_missing hw rest
      | None => Some name
      end
  end.

(** The mutex operations of a trace played against the discipline of a
    mutex, from a given holder: a successful acquire needs the mutex free,
    a failed [try_lock] needs it held, an [unlock] comes from its holder.
    [None] when the trace breaks the discipline, else the last holder. *)
Fixpoint replay (h : option Thread) (tr : list Event)
  : option (option Thread) :=
  match tr with
  | [] => Some h
  | EvMutex t op :: tr' =>
      match op, h with
      | MLock, None => replay (Some t) tr'
      | MTryLock true, None => replay (Some t) tr'
      | MTryLock false, Some _ => replay h tr'
      | MUnlock, Some t' => if decide (t = t') then replay None tr' else None
      | _, _ => None
      end
  | _ :: tr' => replay h tr'
  end.

(** The messages of a trace with the publisher each went out on. *)
Fixpoint publications (tr : list Event) : list (Publisher * PoseStamped) :=
  match tr with
  | [] => []
  | EvPublish pub msg :: tr' => (pub, msg) :: publications tr'
  | _ :: tr' => publications tr'
  end.

(** How often a trace slept, read the hardware, started a thread. *)
Fixpoint sleeps (tr : list Event) : nat :=
  match tr with
  | [] => O
  | EvSleep _ :: tr' => S (sleeps tr')
  | _ :: tr' => sleeps tr'
  end.

Fixpoint reads (tr : list Event) : nat :=
  match tr with
  | [] => O
  | EvAdapterRead :: tr' => S (reads tr')
  | _ :: tr' => reads tr'
  end.

Fixpoint thread_starts (tr : list Event) : nat :=
  match tr with
  | [] => O
  | EvThreadStart :: tr' => S (thread_starts tr')
  | _ :: tr' => thread_starts tr'
  end.

(** What a failing [init] leaves as it found it: the joint buffers, the
    adapter and its manager, the thread, the solver and the mutex, and the
    world around the controller; among its events there is no thread
    start, no pose and no operation on the mutex. *)
Definition init_left_alone (w w' : World) : Prop :=
  m_positions (self w') = m_positions (self w) /\
  m_velocities (self w') = m_velocities (self w) /\
  m_controller_adapter (self w') = m_controller_adapter (self w) /\
  m_controller_manager (self w') = m_controller_manager (self w) /\
  m_adapter_thread (self w') = m_adapter_thread (self w) /\
  m_fk_solver (self w') = m_fk_solver (self w) /\
  m_mutex (self w') = m_mutex (self w) /\
  clock w' = clock w /\ ros_ok w' = ros_ok w /\ joints w' = joints w /\
  exists evs, trace w' = trace w ++ evs /\ thread_starts evs = O /\
              poses evs = [] /\ mutex_ops evs = [].

(** The members [init] sets and nothing afterwards writes. *)
Definition same_setup (c c' : JointToCartesianController) : Prop :=
  m_robot_base_link c' = m_robot_base_link c /\
  m_end_effector_link c' = m_end_effector_link c /\
  m_target_frame_topic c' = m_target_frame_topic c /\
  m_pose_publisher c' = m_pose_publisher c /\
  m_robot_chain c' = m_robot_chain c /\
  m_joint_names c' = m_joint_names c /\
  m_joint_state_handles c' = m_joint_state_handles c /\
  m_velocities c' = m_velocities c /\
  m_adapter_thread c' = m_adapter_thread c /\
  m_fk_solver c' = m_fk_solver c.

(** A message as [update] sends them: on [pub], in the frame [base], with
    the pose of [chain] at some vector of [n] joint positions. *)
Definition pose_of_chain (base : string) (chain : KDL_Chain) (pub : Publisher)
  (n : nat) (pm : Publisher * PoseStamped) : Prop :=
  fst pm = pub /\
  frame_id (header (snd pm)) = base /\
  seq (header (snd pm)) = 0 /\
  exists q, length q = n /\
            position (pose (snd pm)) = p (solve_fk chain q) /\
            orientation (pose (snd pm)) = GetQuaternion (M (solve_fk chain q)).

End Controller.

(** ** A small instance of the external collaborators

    A robot of two links; every joint slides along the x axis of the base
    link, so the end effector sits at the sum of the joint positions. *)

Module Demo.

Definition tree : list string := ["base_link"; "tool0"].

Definition externals : Externals :=
  {| scalar := Z;
     scalar_zero := 0;
     urdf_Model := list string;
     KDL_Tree := list string;
     KDL_Chain := string * string;
     KDL_Rotation := unit;
     Chain_empty := ("", "");
     initString := fun s => if decide (s = "<robot/>") then Some tree else None;
     treeFromUrdfModel := fun m => Some m;
     getChain := fun t root tip =>
       if decide (root ∈ t /\ tip ∈ t) then Some (root, tip) else None;
     JntToCart := fun _ q => ((foldr Z.add 0 q, 0, 0), tt);
     GetQuaternion := fun _ => (0, 0, 0, 1);
     ControllerManager := nat;
     ControllerManager_new := fun _ => O;
     ControllerManager_update := fun _ _ obs cm =>
       (S cm, fun i _ => default 0 ((fun s : Z * Z * Z => s.1.1) <$> obs !! i)) |}.

Definition hw : gmap string JointStateHandle :=
  <["slide_a" := {| h_name := "slide_a"; h_slot := 0 |}]>
  (<["slide_b" := {| h_name := "slide_b"; h_slot := 1 |}]> ∅).

Definition params : gmap string XmlRpcValue :=
  <["/robot_description" := TypeString "<robot/>"]>
  (<["robot_base_link" := TypeString "base_link"]>
  (<["end_effector_link" := TypeString "tool0"]>
  (<["joints" := TypeArray [TypeString "slide_a"; TypeString "slide_b"]]> ∅))).

Definition nh : NodeHandle :=
  {| nh_namespace := "/adapter"; nh_params := params |}.

Definition joints_at_3_4 : list (JointState (E := externals)) :=
  [(3, 0, 0); (4, 0, 0)].

(** The world before [init]: a fresh controller, the joints at 3 and 4. *)
Definition w0 : World (E := externals) :=
  {| self := JointToCartesianController_new;
     clock := 1000;
     ros_ok := true;
     joints := joints_at_3_4;
     trace := [] |}.

(** The same with a robot description that is not urdf. *)
Definition nh_bad_urdf : NodeHandle :=
  {| nh_namespace := "/adapter";
     nh_params := <["/robot_description" := TypeString "not urdf"]> params |}.

(** An end effector link the robot does not have. *)
Definition nh_bad_tip : NodeHandle :=
  {| nh_namespace := "/adapter";
     nh_params := <["end_effector_link" := TypeString "tool1"]> params |}.

(** No list of joints. *)
Definition nh_no_joints : NodeHandle :=
  {| nh_namespace := "/adapter"; nh_params := delete "joints" params |}.

(** The world after [init]. *)
Definition w1 : World (E := externals) := snd (init hw nh w0).

(** The adapter thread has taken the mutex and not yet written. *)
Definition w_inner_holds : World (E := externals) :=
  default w1 (run [LCycle] w1).

(** The adapter thread has written 3 and 4 and released the mutex. *)
Definition w_written : World (E := externals) :=
  default w1 (run [LCycle; LCycleLocked] w1).

(** [update] has taken the mutex and not yet published. *)
Definition w_outer_holds : World (E := externals) :=
  default w1 (run [LUpdate 5 6] w1).

(** The same controller started later, on other joint states. *)
Definition w0_later : World (E := externals) :=
  {| self := JointToCartesianController_new;
     clock := 2000;
     ros_ok := true;
     joints := [];
     trace := [EvSpinner true] |}.


(** A hardware interface that lacks the second joint. *)
Definition hw_one_joint : gmap string JointStateHandle :=
  <["slide_a" := {| h_name := "slide_a"; h_slot := 0 |}]> ∅.

(** No base link name. *)
Definition nh_no_base : NodeHandle :=
  {| nh_namespace := "/adapter"; nh_params := delete "robot_base_link" params |}.

(** A run in which each context is once refused the mutex and once gets
    it. *)
Definition busy_run : list (Label (E := externals)) :=
  [LCycle; LUpdate 5 6; LCycleLocked; LUpdate 7 8; LCycle; LUpdateLocked].

Definition w_busy : World (E := externals) := default w1 (run busy_run w1).

(** While [update] holds the mutex: a loop turn, and time passing. *)
Definition waiting_run : list (Label (E := externals)) :=
  [LCycle; LClock 7].

(** After [init], with [ros::ok()] turned false. *)
Definition w_shutdown : World (E := externals) :=
  default w1 (run [LShutdown] w1).

End Demo.

(** * Properties *)

Section Properties.
Context `{E : Externals}.

Implicit Types (w : World) (c : JointToCartesianController).

(** Unfolds the operations of [Prog]; [cbn] then runs the computation. *)
Ltac prog_unfold :=
  unfold update_locked, cycle, cycle_head, cycle_locked, adapter_read,
    manager_update, adapter_write, Rate_sleep, unlock, publish, advertise,
    ROS_ERROR, ROS_WARN, Time_now, deref, this, assign, emit, throw, bind, ret,
    with_trace, with_self, target_pose_of.

(** ** The mutex *)

Lemma try_lock_free me w :
  holder w = None ->
  try_lock me w =
    (Done true, with_trace (trace w ++ [EvMutex me (MTryLock true)])
                  (with_self (set_mutex (Some me) (self w)) w)).
Proof. unfold holder, try_lock. intros ->. reflexivity. Qed.

Lemma try_lock_held me w :
  holder w <> None ->
  try_lock me w =
    (Done false, with_trace (trace w ++ [EvMutex me (MTryLock false)]) w).
Proof.
  unfold holder, try_lock. destruct (m_mutex (self w)); [reflexivity | congruence].
Qed.

Lemma try_lock_result me w :
  fst (try_lock me w) = Done (bool_decide (holder w = None)).
Proof.
  unfold holder, try_lock. destruct (m_mutex (self w)); reflexivity.
Qed.

Lemma try_lock_fails_iff me w :
  fst (try_lock me w) = Done false <-> holder w <> None.
Proof.
  rewrite try_lock_result. unfold holder.
  destruct (m_mutex (self w)); cbn; split; congruence.
Qed.

Lemma try_lock_succeeds_iff me w :
  fst (try_lock me w) = Done true <-> holder w = None.
Proof.
  rewrite try_lock_result. unfold holder.
  destruct (m_mutex (self w)); cbn; split; congruence.
Qed.

(** ** Traces *)

Lemma poses_app tr1 tr2 : poses (tr1 ++ tr2) = poses tr1 ++ poses tr2.
Proof.
  induction tr1 as [|e tr1 IH]; [reflexivity|].
  destruct e; cbn; rewrite IH; reflexivity.
Qed.

Lemma mutex_ops_app tr1 tr2 :
  mutex_ops (tr1 ++ tr2) = mutex_ops tr1 ++ mutex_ops tr2.
Proof.
  induction tr1 as [|e tr1 IH]; [reflexivity|].
  destruct e; cbn; rewrite IH; reflexivity.
Qed.

(** ** One call of [update] *)

Lemma update_acquired time period w pub chain :
  holder w = None ->
  m_pose_publisher (self w) = Some pub ->
  m_fk_solver (self w) = Some chain ->
  update time period w =
    (Done tt,
     with_trace (trace w ++ [EvMutex Outer (MTryLock true);
                             EvPublish pub (target_pose_of (self w) chain (clock w));
                             EvMutex Outer MUnlock])
       w).
Proof.
  intros Hfree Hpub Hfk.
  unfold update, bind. rewrite (try_lock_free _ _ Hfree).
  destruct w as [c ? ? ? ?]. unfold holder in Hfree.
  destruct c; cbn in Hfree, Hpub, Hfk; subst.
  prog_unfold. cbn. rewrite <- !app_assoc. reflexivity.
Qed.

Lemma update_contended time period w :
  holder w <> None ->
  update time period w =
    (Done tt, with_trace (trace w ++ [EvMutex Outer (MTryLock false)]) w).
Proof.
  intros Hheld. unfold update, bind. rewrite (try_lock_held _ _ Hheld).
  reflexivity.
Qed.

(** ** One turn of the adapter loop *)

Lemma cycle_head_run w a cm :
  m_controller_adapter (self w) = Some a ->
  m_controller_manager (self w) = Some cm ->
  cycle_head w =
    try_lock Inner
      (with_trace (trace w ++ [EvAdapterRead;
                               EvManagerUpdate (clock w) (expectedCycleTime rate)])
         (with_self (set_controller_adapter (Some (adapter_stepped w a cm))
                       (set_controller_manager (Some (manager_stepped w a cm))
                          (self w))) w)).
Proof.
  intros Ha Hcm. destruct w as [c ? ? ? ?]. destruct c; cbn in Ha, Hcm; subst.
  unfold adapter_stepped, manager_stepped.
  prog_unfold. cbn. rewrite <- !app_assoc. reflexivity.
Qed.

Lemma cycle_acquired w a cm :
  m_controller_adapter (self w) = Some a ->
  m_controller_manager (self w) = Some cm ->
  holder w = None ->
  cycle w =
    (Done tt,
     with_trace (trace w ++ [EvAdapterRead;
                             EvManagerUpdate (clock w) (expectedCycleTime rate);
                             EvMutex Inner (MTryLock true);
                             EvAdapterWrite;
                             EvMutex Inner MUnlock;
                             EvSleep (expectedCycleTime rate)])
       (with_self (set_positions (a_cmd (adapter_stepped w a cm))
                     (set_controller_adapter (Some (adapter_stepped w a cm))
                        (set_controller_manager (Some (manager_stepped w a cm))
                           (self w)))) w)).
Proof.
  intros Ha Hcm Hfree. unfold cycle, bind at 1.
  rewrite (cycle_head_run _ _ _ Ha Hcm).
  rewrite try_lock_free by exact Hfree.
  destruct w as [c ? ? ? ?]. unfold holder in Hfree.
  destruct c; cbn in Ha, Hcm, Hfree; subst.
  prog_unfold. cbn. rewrite <- !app_assoc. reflexivity.
Qed.

Lemma cycle_contended w a cm :
  m_controller_adapter (self w) = Some a ->
  m_controller_manager (self w) = Some cm ->
  holder w <> None ->
  cycle w =
    (Done tt,
     with_trace (trace w ++ [EvAdapterRead;
                             EvManagerUpdate (clock w) (expectedCycleTime rate);
                             EvMutex Inner (MTryLock false);
                             EvSleep (expectedCycleTime rate)])
       (with_self (set_controller_adapter (Some (adapter_stepped w a cm))
                     (set_controller_manager (Some (manager_stepped w a cm))
                        (self w))) w)).
Proof.
  intros Ha Hcm Hheld. unfold cycle, bind at 1.
  rewrite (cycle_head_run _ _ _ Ha Hcm).
  rewrite try_lock_held by exact Hheld.
  destruct w as [c ? ? ? ?]. destruct c; cbn in Ha, Hcm; subst.
  prog_unfold. cbn. rewrite <- !app_assoc. reflexivity.
Qed.

Lemma nominal_period : expectedCycleTime rate = 10000000.
Proof. reflexivity. Qed.

(** ** Runs of the two contexts *)

Lemma length_adapter_stepped w a cm :
  length (a_cmd (adapter_stepped w a cm)) = length (a_cmd a).
Proof. unfold adapter_stepped. cbn. apply length_imap. Qed.

Lemma exec_Some {A} (m : Prog A) w w' :
  exec m w = Some w' <-> exists a, m w = (Done a, w').
Proof.
  unfold exec. destruct (m w) as [[a|s] w1]; split.
  - intros [= <-]. eauto.
  - intros [a' [= _ <-]]. reflexivity.
  - discriminate.
  - intros [a' [=]].
Qed.

Lemma step_configured base chain pub n l w w' :
  configured base chain pub n (self w) ->
  step l w = Some w' ->
  configured base chain pub n (self w').
Proof.
  intros (Hb & Hch & Hfk & Hpub & Hp & Hv & (a & Ha & Hcmd) & [cm Hcm]) Hstep.
  destruct l; cbn in Hstep.
  - (* update is called *)
    case_decide; [discriminate|].
    apply exec_Some in Hstep as [b Hstep].
    destruct (holder w) eqn:Hh.
    + rewrite try_lock_held in Hstep by congruence.
      injection Hstep as _ <-. cbn. unfold configured; eauto 10.
    + rewrite try_lock_free in Hstep by assumption.
      injection Hstep as _ <-. cbn. unfold configured; cbn; eauto 10.
  - (* the guarded block of update *)
    case_decide; [|discriminate].
    apply exec_Some in Hstep as [b Hstep].
    revert Hstep. prog_unfold. rewrite Hfk, Hpub. cbn.
    intros [= _ <-]. unfold configured; cbn; eauto 10.
  - (* the head of a cycle *)
    case_decide; [discriminate|].
    destruct (m_adapter_thread (self w) && ros_ok w); [|discriminate].
    apply exec_Some in Hstep as [b Hstep].
    revert Hstep. unfold bind at 1. rewrite (cycle_head_run _ _ _ Ha Hcm).
    destruct (holder w) eqn:Hh; unfold holder in Hh.
    + rewrite try_lock_held by (unfold holder; cbn; congruence).
      prog_unfold. cbn. intros [= _ <-]. unfold configured; cbn.
      pose proof (length_adapter_stepped w a cm) as Hl. rewrite Hcmd in Hl.
      eauto 12.
    + rewrite try_lock_free by (unfold holder; cbn; congruence).
      prog_unfold. cbn. intros [= _ <-]. unfold configured; cbn.
      pose proof (length_adapter_stepped w a cm) as Hl. rewrite Hcmd in Hl.
      eauto 12.
  - (* the guarded block of a cycle *)
    case_decide; [|discriminate].
    apply exec_Some in Hstep as [b Hstep].
    revert Hstep. prog_unfold. rewrite Ha. cbn.
    intros [= _ <-]. unfold configured; cbn; eauto 12.
  - injection Hstep as <-. unfold configured; cbn; eauto 10.
  - injection Hstep as <-. unfold configured; cbn; eauto 10.
  - rewrite Hcm in Hstep. injection Hstep as <-.
    unfold configured; cbn; eauto 10.
  - injection Hstep as <-. unfold configured; cbn; eauto 10.
Qed.

Lemma run_configured base chain pub n ls : forall w w',
  configured base chain pub n (self w) ->
  run ls w = Some w' ->
  configured base chain pub n (self w').
Proof.
  induction ls as [|l ls IH]; cbn; intros w w' Hc Hrun.
  - congruence.
  - destruct (step l w) as [w1|] eqn:Hstep; [|discriminate].
    eapply IH; [|exact Hrun]. eapply step_configured; eauto.
Qed.

(** The steps of a run are the pieces of [update] and of the loop turn:
    run one after the other they are [update] and [cycle]. *)
Lemma update_in_steps time period w :
  holder w <> Some Outer ->
  exec (update time period) w =
    if bool_decide (holder w = None)
    then run [LUpdate time period; LUpdateLocked] w
    else run [LUpdate time period] w.
Proof.
  intros Hout. unfold holder in *.
  destruct w as [c ck okv js tr]. destruct c. cbn in Hout.
  cbn [run step]. unfold holder, exec, update, bind, try_lock. cbn.
  destruct m_mutex0 as [[|]|]; cbn.
  - contradiction.
  - rewrite decide_False by discriminate. reflexivity.
  - rewrite decide_False by discriminate. cbn.
    rewrite decide_True by reflexivity.
    prog_unfold. cbn.
    destruct m_fk_solver0; cbn; [|reflexivity].
    destruct m_pose_publisher0; cbn; reflexivity.
Qed.

Lemma cycle_in_steps w :
  holder w <> Some Inner ->
  m_adapter_thread (self w) = true ->
  ros_ok w = true ->
  exec cycle w =
    if bool_decide (holder w = None)
    then run [LCycle; LCycleLocked] w
    else run [LCycle] w.
Proof.
  intros Hin Hthread Hok. unfold holder in *.
  destruct w as [c ck okv js tr]. destruct c. cbn in Hin, Hthread, Hok. subst.
  cbn [run step]. unfold holder, exec. cbn.
  prog_unfold. unfold try_lock. cbn.
  destruct m_mutex0 as [[|]|]; cbn; [|contradiction|];
    rewrite decide_False by discriminate; cbn;
    (destruct m_controller_adapter0; cbn; [|reflexivity]);
    (destruct m_controller_manager0; cbn; [|reflexivity]);
    [reflexivity|].
  rewrite decide_True by reflexivity. cbn. reflexivity.
Qed.

(** ** [init] *)

Lemma get_handles_run hw names : forall w hs,
  mapM (getHandle hw) names = Some hs ->
  get_handles hw names w =
    (Done tt,
     with_self (set_joint_state_handles
                  (m_joint_state_handles (self w) ++ hs) (self w)) w).
Proof.
  induction names as [|name names IH]; intros w hs Hm.
  - injection Hm as <-. cbn. rewrite app_nil_r.
    destruct w as [c ? ? ? ?]; destruct c; reflexivity.
  - cbn in Hm. cbn [get_handles].
    destruct (getHandle hw name) as [h|]; [|discriminate].
    cbn in Hm. destruct (mapM (getHandle hw) names) as [hs'|] eqn:Hm';
      [|discriminate].
    injection Hm as <-.
    unfold bind at 1. unfold assign at 1.
    rewrite (IH _ hs' eq_refl). cbn. rewrite <- app_assoc.
    destruct w as [c ? ? ? ?]; destruct c; reflexivity.
Qed.

Lemma get_handles_cases hw names w :
  (exists hs, mapM (getHandle hw) names = Some hs) \/
  (exists name w',
     get_handles hw names w =
       (Stopped (Throw (HardwareInterfaceException name)), w') /\
     trace w' = trace w /\
     m_pose_publisher (self w') = m_pose_publisher (self w) /\
     not_started w w').
Proof.
  revert w. induction names as [|name names IH]; intros w.
  - left. exists []. reflexivity.
  - cbn [get_handles]. destruct (getHandle hw name) as [h|] eqn:Hh.
    + unfold bind at 1. unfold assign at 1.
      destruct (IH (with_self
                      (set_joint_state_handles
                         (m_joint_state_handles (self w) ++ [h]) (self w)) w))
        as [[hs Hm]|(nm & w' & Hs & Htr & Hpub & Hns)].
      * left. exists (h :: hs). cbn. rewrite Hh. cbn. rewrite Hm. reflexivity.
      * right. exists nm, w'. auto.
    + right. exists name, w. unfold not_started. auto.
Qed.

Lemma init_run hw nh w desc base tip model tree chain names hs :
  getParam_string nh "/robot_description" = Some desc ->
  getParam_string nh "robot_base_link" = Some base ->
  getParam_string nh "end_effector_link" = Some tip ->
  initString desc = Some model ->
  treeFromUrdfModel model = Some tree ->
  getChain tree base tip = Some chain ->
  getParam_strings nh "joints" = Some names ->
  mapM (getHandle hw) names = Some hs ->
  init hw nh w = (Done true, init_done nh base tip chain names hs w).
Proof.
  intros Hd Hb Ht Hm Htr Hc Hn Hh.
  unfold init, init_done, advertised, publisher_of, topic_of.
  rewrite Hd, Hb, Ht.
  destruct (getParam_string nh "target_frame_topic") as [topic|];
    prog_unfold; cbn; rewrite Hm, Htr; cbn; rewrite Hc, Hn; cbn;
    erewrite get_handles_run by exact Hh; cbn;
    rewrite <- !app_assoc; reflexivity.
Qed.

Lemma init_cases hw nh w : init_spec hw nh w (init hw nh w).
Proof.
  unfold init_spec, not_started, init, init_done, advertised, publisher_of,
    topic_of.
  destruct (getParam_string nh "/robot_description") as [desc|];
    [|cbn; eauto 10].
  destruct (getParam_string nh "robot_base_link") as [base|];
    [|cbn; eauto 10].
  destruct (getParam_string nh "end_effector_link") as [tip|];
    [|cbn; eauto 10].
  destruct (getParam_string nh "target_frame_topic") as [topic|];
    prog_unfold; cbn;
    (destruct (initString desc) as [model|]; cbn;
       [|solve [rewrite <- ?app_assoc; cbn; eauto 10]]);
    (destruct (treeFromUrdfModel model) as [tree|]; cbn;
       [|solve [rewrite <- ?app_assoc; cbn; eauto 10]]);
    (destruct (getChain tree base tip) as [chain|]; cbn;
       [|solve [rewrite <- ?app_assoc; cbn; eauto 10]]);
    (destruct (getParam_strings nh "joints") as [names|]; cbn;
       [|solve [rewrite <- ?app_assoc; cbn; eauto 10]]);
    (destruct (mapM (getHandle hw) names) as [hs|] eqn:Hh;
       [ match goal with
         | |- context [get_handles hw names ?W] =>
             rewrite (get_handles_run hw names W hs Hh)
         end
       | match goal with
         | |- context [get_handles hw names ?W] =>
             destruct (get_handles_cases hw names W)
               as [[hs' Hs]|(nm & w' & Hs & Htrace & Hpub & Hthr & Hfk)];
               [congruence | rewrite Hs; cbn; rewrite Htrace, Hpub, Hthr, Hfk]
         end ]);
    cbn; rewrite <- ?app_assoc; cbn; eauto 10;
    (split; [eexists; reflexivity|]); (split; [reflexivity|]);
    destruct w as [c ? ? ? ?]; destruct c; reflexivity.
Qed.

Lemma init_inv hw nh w w1 :
  init hw nh w = (Done true, w1) ->
  exists desc base tip model tree chain names hs,
    getParam_string nh "/robot_description" = Some desc /\
    getParam_string nh "robot_base_link" = Some base /\
    getParam_string nh "end_effector_link" = Some tip /\
    initString desc = Some model /\
    treeFromUrdfModel model = Some tree /\
    getChain tree base tip = Some chain /\
    getParam_strings nh "joints" = Some names /\
    mapM (getHandle hw) names = Some hs /\
    w1 = init_done nh base tip chain names hs w.
Proof.
  intros Hinit. pose proof (init_cases hw nh w) as Hspec.
  unfold init_spec in Hspec. rewrite Hinit in Hspec. cbn [fst snd] in Hspec.
  destruct (getParam_string nh "/robot_description") as [desc|] eqn:Hd;
    [|destruct Hspec as [[=] _]].
  destruct (getParam_string nh "robot_base_link") as [base|] eqn:Hb;
    [|destruct Hspec as [[=] _]].
  destruct (getParam_string nh "end_effector_link") as [tip|] eqn:Ht;
    [|destruct Hspec as [[=] _]].
  destruct Hspec as (_ & _ & Hspec).
  destruct (initString desc) as [model|] eqn:Hm;
    [|destruct Hspec as [[=] _]].
  destruct (treeFromUrdfModel model) as [tree|] eqn:Htr;
    [|destruct Hspec as [[=] _]].
  destruct (getChain tree base tip) as [chain|] eqn:Hc;
    [|destruct Hspec as [[=] _]].
  destruct (getParam_strings nh "joints") as [names|] eqn:Hn;
    [|destruct Hspec as [[=] _]].
  destruct (mapM (getHandle hw) names) as [hs|] eqn:Hh;
    [|destruct Hspec as [[? [=]] _]].
  injection Hspec as ->.
  exists desc, base, tip, model, tree, chain, names, hs. auto 10.
Qed.

Lemma init_configured hw nh w w1 :
  init hw nh w = (Done true, w1) ->
  exists base,
    getParam_string nh "robot_base_link" = Some base /\
    configured base (m_robot_chain (self w1)) (publisher_of nh)
      (length (m_joint_state_handles (self w1))) (self w1).
Proof.
  intros Hinit.
  destruct (init_inv _ _ _ _ Hinit)
    as (desc & base & tip & model & tree & chain & names & hs
        & Hd & Hb & Ht & Hm & Htr & Hc & Hn & Hh & ->).
  exists base. split; [assumption|].
  unfold configured, init_done. cbn.
  rewrite !length_replicate. repeat split; eauto.
  eexists. split; [reflexivity|]. cbn. apply length_replicate.
Qed.

(** ** The claims about [update] *)

(** C1: in every world reached from a successful [init], a call of
    [update] whose [try_lock] gets the mutex publishes exactly one pose
    message; its frame id is the configured base link name, its position
    and orientation are the frame the forward kinematics solver computes
    from the joint positions in the shared buffer, and its stamp is the
    current time. *)
Theorem update_publishes_fk_pose hw nh w0 w1 ls w time period :
  init hw nh w0 = (Done true, w1) ->
  run ls w1 = Some w ->
  fst (try_lock Outer w) = Done true ->
  exists msg w',
    update time period w = (Done tt, w') /\
    trace w' = trace w ++ [EvMutex Outer (MTryLock true);
                           EvPublish (publisher_of nh) msg;
                           EvMutex Outer MUnlock] /\
    poses (trace w') = poses (trace w) ++ [msg] /\
    getParam_string nh "robot_base_link" = Some (frame_id (header msg)) /\
    m_fk_solver (self w) = Some (m_robot_chain (self w)) /\
    position (pose msg) =
      p (solve_fk (m_robot_chain (self w)) (m_positions (self w))) /\
    orientation (pose msg) =
      GetQuaternion
        (M (solve_fk (m_robot_chain (self w)) (m_positions (self w)))) /\
    stamp (header msg) = clock w.
Proof.
  intros Hinit Hrun Hlock.
  apply try_lock_succeeds_iff in Hlock.
  destruct (init_configured _ _ _ _ Hinit) as (base & Hbase & Hconf).
  pose proof (run_configured _ _ _ _ _ _ _ Hconf Hrun)
    as (Hb & Hch & Hfk & Hpub & _).
  eexists _, _. split.
  { apply update_acquired; eassumption. }
  unfold target_pose_of. cbn. rewrite poses_app. cbn.
  rewrite Hb, Hch. repeat split; try reflexivity; assumption.
Qed.

Lemma step_poses l w w' :
  step l w = Some w' ->
  (length (poses (trace w')) + pending w'
   <= length (poses (trace w)) + pending w + outer_ticks [l])%nat.
Proof.
  intros Hstep. unfold pending.
  destruct w as [c ck okv js tr]. destruct c. unfold holder in *.
  destruct l; cbn in Hstep; unfold holder in Hstep; cbn in Hstep.
  - case_decide; [discriminate|].
    unfold exec, try_lock in Hstep. cbn in Hstep.
    destruct m_mutex0; injection Hstep as <-; cbn;
      rewrite poses_app, length_app; cbn;
      repeat case_decide; try congruence; lia.
  - case_decide; [|discriminate].
    unfold exec in Hstep. revert Hstep. prog_unfold. cbn.
    destruct m_fk_solver0; cbn; [|discriminate].
    destruct m_pose_publisher0; cbn; intros [= <-]; cbn;
      rewrite ?poses_app, ?length_app; cbn;
      repeat case_decide; try congruence; lia.
  - case_decide; [discriminate|].
    destruct (m_adapter_thread0 && okv); [|discriminate].
    unfold exec in Hstep. revert Hstep. prog_unfold. cbn.
    destruct m_controller_adapter0; cbn; [|discriminate].
    destruct m_controller_manager0; cbn; [|discriminate].
    unfold try_lock. cbn.
    destruct m_mutex0; cbn; intros [= <-]; cbn;
      rewrite ?poses_app, ?length_app; cbn;
      repeat case_decide; try congruence; lia.
  - case_decide; [|discriminate].
    unfold exec in Hstep. revert Hstep. prog_unfold. cbn.
    destruct m_controller_adapter0; cbn; [|discriminate].
    intros [= <-]; cbn.
    rewrite ?poses_app, ?length_app; cbn.
    repeat case_decide; try congruence; lia.
  - injection Hstep as <-. cbn. lia.
  - injection Hstep as <-. cbn. lia.
  - destruct m_controller_manager0; [|discriminate].
    injection Hstep as <-. cbn. lia.
  - injection Hstep as <-. cbn. lia.
Qed.

Lemma run_poses ls : forall w w',
  run ls w = Some w' ->
  (length (poses (trace w')) + pending w'
   <= length (poses (trace w)) + pending w + outer_ticks ls)%nat.
Proof.
  induction ls as [|l ls IH]; cbn [run]; intros w w' Hrun.
  - injection Hrun as <-. cbn. lia.
  - destruct (step l w) as [w1|] eqn:Hstep; [|discriminate].
    pose proof (step_poses _ _ _ Hstep) as H1.
    pose proof (IH _ _ Hrun) as H2.
    assert (outer_ticks (l :: ls) = (outer_ticks [l] + outer_ticks ls)%nat)
      as -> by (destruct l; reflexivity).
    lia.
Qed.

(** C2: a call of [update] whose [try_lock] fails returns at once: it
    publishes nothing and leaves the world as it was, the failed attempt
    apart; and over any run that starts outside [update], the poses
    published are at most as many as the calls of [update]. *)
Theorem update_skips_when_contended :
  (forall w time period,
     fst (try_lock Outer w) = Done false ->
     update time period w =
       (Done tt, with_trace (trace w ++ [EvMutex Outer (MTryLock false)]) w) /\
     poses (trace (snd (update time period w))) = poses (trace w) /\
     self (snd (update time period w)) = self w) /\
  (forall ls w w',
     holder w <> Some Outer ->
     run ls w = Some w' ->
     (length (poses (trace w')) <= length (poses (trace w)) + outer_ticks ls)%nat).
Proof.
  split.
  - intros w time period Hfail. apply try_lock_fails_iff in Hfail.
    rewrite (update_contended _ _ _ Hfail). cbn.
    rewrite poses_app. cbn. rewrite app_nil_r. auto.
  - intros ls w w' Hout Hrun.
    pose proof (run_poses _ _ _ Hrun) as H.
    unfold pending in H at 2. case_decide; [contradiction|]. lia.
Qed.

(** ** The claims about the adapter loop *)

Lemma cycle_head_result w :
  fst (cycle_head w) = Done false ->
  holder w <> None /\
  exists a cm, m_controller_adapter (self w) = Some a /\
               m_controller_manager (self w) = Some cm.
Proof.
  destruct (m_controller_adapter (self w)) as [a|] eqn:Ha.
  2:{ unfold cycle_head, adapter_read, bind, this. cbn. rewrite Ha. cbn.
      discriminate. }
  destruct (m_controller_manager (self w)) as [cm|] eqn:Hcm.
  2:{ unfold cycle_head, adapter_read, manager_update, Time_now, bind, this.
      cbn. rewrite Ha. cbn. rewrite Hcm. cbn. discriminate. }
  rewrite (cycle_head_run _ _ _ Ha Hcm). intros Hres.
  apply try_lock_fails_iff in Hres. unfold holder in *. cbn in Hres. eauto.
Qed.

(** C3: a turn of the adapter loop whose [try_lock] fails leaves the
    shared positions and velocities as they were: it makes that one
    attempt, skips the write and goes to sleep. *)
Theorem cycle_keeps_buffer_when_contended w :
  fst (cycle_head w) = Done false ->
  exists w',
    cycle w = (Done tt, w') /\
    m_positions (self w') = m_positions (self w) /\
    m_velocities (self w') = m_velocities (self w) /\
    trace w' = trace w ++ [EvAdapterRead;
                           EvManagerUpdate (clock w) (expectedCycleTime rate);
                           EvMutex Inner (MTryLock false);
                           EvSleep (expectedCycleTime rate)].
Proof.
  intros Hfail.
  destruct (cycle_head_result _ Hfail) as (Hheld & a & cm & Ha & Hcm).
  eexists. split; [apply (cycle_contended _ _ _ Ha Hcm Hheld)|].
  cbn. auto.
Qed.

(** C4: a turn of the adapter loop reads the joint state, then steps the
    controller manager with the current time and the nominal period of
    the 100 Hz rate, then tries the mutex once and writes the joint targets
    into the shared buffer if it got it, then sleeps; and each turn of the
    loop is such a turn. *)
Theorem cycle_order w a cm :
  m_controller_adapter (self w) = Some a ->
  m_controller_manager (self w) = Some cm ->
  exists w',
    cycle w = (Done tt, w') /\
    trace w' =
      trace w
      ++ [EvAdapterRead; EvManagerUpdate (clock w) 10000000]
      ++ (if bool_decide (holder w = None)
          then [EvMutex Inner (MTryLock true); EvAdapterWrite;
                EvMutex Inner MUnlock]
          else [EvMutex Inner (MTryLock false)])
      ++ [EvSleep 10000000] /\
    m_controller_adapter (self w') = Some (adapter_stepped w a cm) /\
    a_states (adapter_stepped w a cm) =
      map (fun h => default JointState_zero (joints w !! h_slot h))
          (a_handles a) /\
    m_controller_manager (self w') =
      Some (fst (ControllerManager_update (clock w) 10000000
                   (a_states (adapter_stepped w a cm)) cm)) /\
    (holder w = None ->
     m_positions (self w') = a_cmd (adapter_stepped w a cm)) /\
    (forall n, ros_ok w = true ->
       adapter_loop (S n) w = adapter_loop n w').
Proof.
  intros Ha Hcm.
  destruct (holder w) as [t|] eqn:Hh.
  - eexists. split; [apply (cycle_contended _ _ _ Ha Hcm); congruence|].
    cbn. repeat split; try reflexivity; try congruence.
    intros n Hok. cbn [adapter_loop]. rewrite Hok. unfold bind at 1.
    rewrite (cycle_contended _ _ _ Ha Hcm) by congruence. reflexivity.
  - eexists. split; [apply (cycle_acquired _ _ _ Ha Hcm Hh)|].
    cbn. repeat split; try reflexivity.
    intros n Hok. cbn [adapter_loop]. rewrite Hok. unfold bind at 1.
    rewrite (cycle_acquired _ _ _ Ha Hcm Hh). reflexivity.
Qed.

(** ** No blocking acquire *)

Lemma lock_waits me other w :
  holder w = Some other -> lock me w = (Stopped WouldBlock, w).
Proof. unfold holder, lock. intros ->. reflexivity. Qed.

Lemma update_never_waits time period w : never_waits (update time period) w.
Proof.
  unfold never_waits, update, try_lock, bind.
  destruct w as [c ? ? ? tr]. destruct c. cbn.
  destruct m_mutex0; cbn.
  - split; [discriminate|]. eexists. split; [reflexivity|].
    cbn. repeat constructor.
  - prog_unfold. cbn.
    destruct m_fk_solver0; cbn;
      [destruct m_pose_publisher0; cbn|];
      (split; [discriminate|]); rewrite <- ?app_assoc;
      (eexists; split; [reflexivity|]); cbn; repeat constructor.
Qed.

Lemma cycle_never_waits w : never_waits cycle w.
Proof.
  unfold never_waits.
  destruct w as [c ? ? ? tr]. destruct c.
  prog_unfold. unfold try_lock. cbn.
  destruct m_controller_adapter0; cbn.
  2:{ split; [discriminate|]. exists []. rewrite app_nil_r.
      split; [reflexivity | constructor]. }
  destruct m_controller_manager0; cbn.
  2:{ split; [discriminate|]. eexists. split; [reflexivity|].
      cbn. constructor. }
  destruct m_mutex0; cbn;
    (split; [discriminate|]); rewrite <- ?app_assoc;
    (eexists; split; [reflexivity|]); cbn; repeat constructor.
Qed.

(** C5: neither [update] nor a turn of the adapter loop ever performs a
    blocking acquire: the only operations on the mutex are [try_lock] and
    [unlock], neither computation ever stops to wait, and in a configured
    controller each context can take its next step whoever holds the
    mutex. *)
Theorem try_lock_only :
  (forall time period w, never_waits (update time period) w) /\
  (forall w, never_waits cycle w) /\
  (forall base chain pub n w time period,
     configured base chain pub n (self w) ->
     (is_Some (step (LUpdate time period) w) \/ is_Some (step LUpdateLocked w)) /\
     (m_adapter_thread (self w) = true -> ros_ok w = true ->
      is_Some (step LCycle w) \/ is_Some (step LCycleLocked w))).
Proof.
  split; [exact update_never_waits|]. split; [exact cycle_never_waits|].
  intros base chain pub n w time period
    (Hb & Hch & Hfk & Hpub & Hp & Hv & (a & Ha & Hcmd) & [cm Hcm]).
  split.
  - cbn. case_decide as Hh.
    + right. unfold exec. prog_unfold. rewrite Hfk, Hpub. cbn. eauto.
    + left. unfold exec, try_lock.
      destruct (m_mutex (self w)); cbn; eauto.
  - intros Hthread Hok. cbn. rewrite Hthread, Hok. cbn.
    case_decide as Hh.
    + right. unfold exec. prog_unfold. rewrite Ha. cbn. eauto.
    + left. unfold exec, bind at 1. rewrite (cycle_head_run _ _ _ Ha Hcm).
      unfold try_lock. cbn.
      destruct (m_mutex (self w)); cbn; eauto.
Qed.

(** ** The claims about [init] *)

Lemma init_fails_without_param hw nh w :
  getParam_string nh "/robot_description" = None \/
  getParam_string nh "robot_base_link" = None \/
  getParam_string nh "end_effector_link" = None \/
  getParam_strings nh "joints" = None ->
  init_failed (init hw nh w) /\ not_started w (snd (init hw nh w)).
Proof.
  intros Hmiss. pose proof (init_cases hw nh w) as Hspec.
  unfold init_spec, init_failed in *.
  destruct (getParam_string nh "/robot_description") as [desc|];
    [|intuition].
  destruct (getParam_string nh "robot_base_link") as [base|]; [|intuition].
  destruct (getParam_string nh "end_effector_link") as [tip|]; [|intuition].
  destruct Hspec as (_ & _ & Hspec).
  destruct (initString desc) as [model|]; [|intuition].
  destruct (treeFromUrdfModel model) as [tree|]; [|intuition eauto].
  destruct (getChain tree base tip) as [chain|]; [|intuition eauto].
  destruct (getParam_strings nh "joints") as [names|]; [|intuition eauto].
  intuition discriminate.
Qed.

(** C6: when the robot description, the base link name, the end effector
    link name or the list of joint names is absent from the parameter
    server, [init] fails: it returns [false] or throws, it never returns
    [true], and it starts neither the adapter thread nor the solver. *)
Theorem init_fails_without_mandatory hw nh w :
  nh_params nh !! "/robot_description" = None \/
  nh_params nh !! "robot_base_link" = None \/
  nh_params nh !! "end_effector_link" = None \/
  nh_params nh !! "joints" = None ->
  init_failed (init hw nh w) /\
  fst (init hw nh w) <> Done true /\
  not_started w (snd (init hw nh w)).
Proof.
  intros Habsent.
  assert (init_failed (init hw nh w) /\ not_started w (snd (init hw nh w)))
    as [Hfail Hns].
  { apply init_fails_without_param.
    unfold getParam_string, getParam_strings.
    destruct Habsent as [-> | [-> | [-> | ->]]]; auto. }
  repeat split; try apply Hns; [exact Hfail|].
  destruct Hfail as [Hf | [e Hf]]; rewrite Hf; discriminate.
Qed.

(** C7 as amended: with the three names configured, a description that
    is not urdf makes [init] log an error and return [false]: the error is
    the one event after the advertise, and nothing is thrown; a model from
    which no tree can be built, and a pair of links without a chain in the
    tree, make [init] log the error and throw it as a [runtime_error]. *)
Theorem init_model_failures hw nh w desc base tip :
  getParam_string nh "/robot_description" = Some desc ->
  getParam_string nh "robot_base_link" = Some base ->
  getParam_string nh "end_effector_link" = Some tip ->
  (initString desc = None ->
   fst (init hw nh w) = Done false /\
   trace (snd (init hw nh w)) =
     trace w ++ advertised nh
     ++ [EvLog Error "Failed to parse urdf model from 'robot_description'"]) /\
  (forall model,
     initString desc = Some model ->
     treeFromUrdfModel model = None ->
     fst (init hw nh w) =
       Stopped (Throw (runtime_error "Failed to parse KDL tree from urdf model")) /\
     trace (snd (init hw nh w)) =
       trace w ++ advertised nh
       ++ [EvLog Error "Failed to parse KDL tree from urdf model"]) /\
  (forall model tree,
     initString desc = Some model ->
     treeFromUrdfModel model = Some tree ->
     getChain tree base tip = None ->
     fst (init hw nh w) =
       Stopped (Throw (runtime_error
                  "Failed to parse robot chain from urdf model. Are you sure that both your 'robot_base_link' and 'end_effector_link' exist?")) /\
     trace (snd (init hw nh w)) =
       trace w ++ advertised nh
       ++ [EvLog Error
             "Failed to parse robot chain from urdf model. Are you sure that both your 'robot_base_link' and 'end_effector_link' exist?"]).
Proof.
  intros Hd Hb Ht.
  pose proof (init_cases hw nh w) as Hspec.
  unfold init_spec in Hspec. rewrite Hd, Hb, Ht in Hspec.
  destruct Hspec as (_ & _ & Hspec).
  split; [|split].
  - intros Hm. split; [rewrite Hm in Hspec; apply Hspec|].
    unfold init, advertised, publisher_of, topic_of.
    rewrite Hd, Hb, Ht.
    destruct (getParam_string nh "target_frame_topic");
      prog_unfold; cbn; rewrite Hm; cbn; rewrite <- ?app_assoc; reflexivity.
  - intros model Hm Htr. split; [rewrite Hm, Htr in Hspec; apply Hspec|].
    unfold init, advertised, publisher_of, topic_of.
    rewrite Hd, Hb, Ht.
    destruct (getParam_string nh "target_frame_topic");
      prog_unfold; cbn; rewrite Hm, Htr; cbn; rewrite <- ?app_assoc;
      reflexivity.
  - intros model tree Hm Htr Hc.
    split; [rewrite Hm, Htr, Hc in Hspec; apply Hspec|].
    unfold init, advertised, publisher_of, topic_of.
    rewrite Hd, Hb, Ht.
    destruct (getParam_string nh "target_frame_topic");
      prog_unfold; cbn; rewrite Hm, Htr; cbn; rewrite Hc; cbn;
      rewrite <- ?app_assoc; reflexivity.
Qed.


(** C9: [init] is a function of the configuration, of the hardware
    interface and of the controller object alone.  Two runs that start from
    the same object with the same inputs, whatever the time, the joint
    states and the past of each, end alike: when one returns [true] so does
    the other, with the same object; the chain is the one the tree holds
    between the two configured links, the handles are those of the
    configured joints in their order, and the topic is [target_frame] when
    none is configured. *)
Theorem init_deterministic hw nh w w' w1 :
  self w = self w' ->
  init hw nh w = (Done true, w1) ->
  exists w1' desc base tip model tree chain names hs,
    init hw nh w' = (Done true, w1') /\
    self w1' = self w1 /\
    (exists evs, trace w1 = trace w ++ evs /\ trace w1' = trace w' ++ evs) /\
    getParam_string nh "/robot_description" = Some desc /\
    getParam_string nh "robot_base_link" = Some base /\
    getParam_string nh "end_effector_link" = Some tip /\
    initString desc = Some model /\
    treeFromUrdfModel model = Some tree /\
    getChain tree base tip = Some chain /\
    m_robot_chain (self w1) = chain /\
    getParam_strings nh "joints" = Some names /\
    mapM (getHandle hw) names = Some hs /\
    m_joint_state_handles (self w1) = m_joint_state_handles (self w) ++ hs /\
    (getParam_string nh "target_frame_topic" = None ->
     m_target_frame_topic (self w1) = "target_frame" /\
     m_pose_publisher (self w1) =
       Some {| pub_topic := "target_frame"; pub_queue_size := 10 |}).
Proof.
  intros Hself Hinit.
  destruct (init_inv _ _ _ _ Hinit)
    as (desc & base & tip & model & tree & chain & names & hs
        & Hd & Hb & Ht & Hm & Htr & Hc & Hn & Hh & ->).
  exists (init_done nh base tip chain names hs w'),
    desc, base, tip, model, tree, chain, names, hs.
  split; [eapply init_run; eassumption|].
  split; [unfold init_done; cbn; rewrite Hself; reflexivity|].
  split; [eexists; split; reflexivity|].
  repeat (split; [first [assumption | reflexivity]|]).
  intros Hnone. unfold init_done, publisher_of, topic_of. cbn.
  rewrite Hnone. split; reflexivity.
Qed.

(** C10: when [init] has read the three names and then fails at parsing
    the description, at building the tree or at extracting the chain, the
    publisher on the configured topic, or on [target_frame] when none is
    configured, has been advertised already and stays in the controller. *)
Theorem init_failure_leaves_publisher hw nh w :
  model_unresolved nh ->
  init_failed (init hw nh w) /\
  (exists before after,
     trace (snd (init hw nh w)) =
       trace w ++ before ++ [EvAdvertise (publisher_of nh)] ++ after) /\
  m_pose_publisher (self (snd (init hw nh w))) = Some (publisher_of nh) /\
  pub_topic (publisher_of nh) =
    default "target_frame" (getParam_string nh "target_frame_topic").
Proof.
  intros (desc & base & tip & Hd & Hb & Ht & Hbad).
  pose proof (init_cases hw nh w) as Hspec.
  unfold init_spec in Hspec. rewrite Hd, Hb, Ht in Hspec.
  destruct Hspec as ([evs Htrace] & Hpub & Hspec).
  split; [|split; [|split; [exact Hpub | reflexivity]]].
  - unfold init_failed.
    destruct (initString desc) as [model|]; [|left; apply Hspec].
    destruct (treeFromUrdfModel model) as [tree|];
      [|right; eexists; apply Hspec].
    rewrite Hbad in Hspec. right. eexists. apply Hspec.
  - rewrite Htrace. unfold advertised.
    match goal with
    | |- context [?warning ++ [EvAdvertise (publisher_of nh)]] =>
        exists warning, evs; rewrite <- (app_assoc warning)
    end.
    reflexivity.
Qed.

(** * Further properties *)

(** ** More about [init] *)

Lemma get_handles_eq hw names : forall w,
  get_handles hw names w =
    (match first_missing hw names with
     | None => Done tt
     | Some name => Stopped (Throw (HardwareInterfaceException name))
     end,
     with_self (set_joint_state_handles
                  (m_joint_state_handles (self w) ++ pushed hw names)
                  (self w)) w).
Proof.
  induction names as [|name names IH]; intros w.
  - cbn. rewrite app_nil_r. destruct w as [c ? ? ? ?]; destruct c; reflexivity.
  - cbn [get_handles first_missing pushed].
    destruct (getHandle hw name) as [h|].
    + unfold bind at 1. unfold assign at 1. rewrite IH. cbn.
      rewrite <- app_assoc.
      destruct w as [c ? ? ? ?]; destruct c; reflexivity.
    + cbn. rewrite app_nil_r.
      destruct w as [c ? ? ? ?]; destruct c; reflexivity.
Qed.

Lemma first_missing_None hw names :
  first_missing hw names = None <->
  mapM (getHandle hw) names = Some (pushed hw names).
Proof.
  induction names as [|name names IH]; cbn; [tauto|].
  destruct (getHandle hw name) as [h|]; cbn; [|split; discriminate].
  rewrite IH. destruct (mapM (getHandle hw) names) as [hs|]; cbn.
  - split; [intros [= ->]; reflexivity | intros [= ->]; reflexivity].
  - split; discriminate.
Qed.

Lemma mapM_pushed hw names hs :
  mapM (getHandle hw) names = Some hs -> pushed hw names = hs.
Proof.
  revert hs. induction names as [|name names IH]; cbn; intros hs.
  - intros [= <-]. reflexivity.
  - destruct (getHandle hw name) as [h|]; cbn; [|discriminate].
    destruct (mapM (getHandle hw) names) as [hs'|]; cbn; [|discriminate].
    intros [= <-]. f_equal. apply IH. reflexivity.
Qed.

Lemma first_missing_Some hw names name :
  first_missing hw names = Some name ->
  exists before after,
    names = before ++ name :: after /\
    getHandle hw name = None /\
    mapM (getHandle hw) before = Some (pushed hw names).
Proof.
  induction names as [|nm names IH]; cbn; [discriminate|].
  destruct (getHandle hw nm) as [h|] eqn:Hh.
  - intros Hm. destruct (IH Hm) as (before & after & -> & Hnone & Hpre).
    exists (nm :: before), after. repeat split; [assumption|].
    cbn. rewrite Hh. cbn. rewrite Hpre. reflexivity.
  - intros [= <-]. exists [], names. auto.
Qed.

Lemma thread_starts_app tr1 tr2 :
  thread_starts (tr1 ++ tr2) = (thread_starts tr1 + thread_starts tr2)%nat.
Proof.
  induction tr1 as [|e tr1 IH]; [reflexivity|].
  destruct e; cbn; rewrite ?IH; reflexivity.
Qed.

(** X1: [init] returns [true] exactly when the three names are
    configured, the description parses, a tree can be built from it, the
    tree holds a chain between the two links, the joints are configured and
    the hardware interface has a handle for each of them. *)
Theorem init_returns_true_iff hw nh w :
  fst (init hw nh w) = Done true <->
  exists desc base tip model tree chain names hs,
    getParam_string nh "/robot_description" = Some desc /\
    getParam_string nh "robot_base_link" = Some base /\
    getParam_string nh "end_effector_link" = Some tip /\
    initString desc = Some model /\
    treeFromUrdfModel model = Some tree /\
    getChain tree base tip = Some chain /\
    getParam_strings nh "joints" = Some names /\
    mapM (getHandle hw) names = Some hs.
Proof.
  split.
  - destruct (init hw nh w) as [o w1] eqn:Hinit. cbn. intros ->.
    destruct (init_inv _ _ _ _ Hinit)
      as (desc & base & tip & model & tree & chain & names & hs
          & Hd & Hb & Ht & Hm & Htr & Hc & Hn & Hh & _).
    exists desc, base, tip, model, tree, chain, names, hs. auto 10.
  - intros (desc & base & tip & model & tree & chain & names & hs
            & Hd & Hb & Ht & Hm & Htr & Hc & Hn & Hh).
    rewrite (init_run hw nh w desc base tip model tree chain names hs)
      by assumption.
    reflexivity.
Qed.

Lemma init_failure_frame hw nh w :
  fst (init hw nh w) <> Done true ->
  init_left_alone w (snd (init hw nh w)).
Proof.
  unfold init_left_alone, init.
  destruct (getParam_string nh "/robot_description") as [desc|];
    [|intros _; cbn; eauto 15].
  destruct (getParam_string nh "robot_base_link") as [base|];
    [|intros _; cbn; eauto 15].
  destruct (getParam_string nh "end_effector_link") as [tip|];
    [|intros _; cbn; eauto 15].
  destruct (getParam_string nh "target_frame_topic") as [topic|];
    prog_unfold; cbn;
    (destruct (initString desc) as [model|]; cbn;
       [|solve [intros _; rewrite <- ?app_assoc; cbn; eauto 15]]);
    (destruct (treeFromUrdfModel model) as [tree|]; cbn;
       [|solve [intros _; rewrite <- ?app_assoc; cbn; eauto 15]]);
    (destruct (getChain tree base tip) as [chain|]; cbn;
       [|solve [intros _; rewrite <- ?app_assoc; cbn; eauto 15]]);
    (destruct (getParam_strings nh "joints") as [names|]; cbn;
       [|solve [intros _; rewrite <- ?app_assoc; cbn; eauto 15]]);
    rewrite get_handles_eq;
    (destruct (first_missing hw names); cbn; [|congruence]);
    intros _; rewrite <- ?app_assoc; cbn; eauto 15.
Qed.

(** X2: [init] starts the adapter thread exactly when it returns [true],
    and then once; an [init] that fails, whichever way, leaves the joint
    buffers, the adapter, the manager, the solver and the mutex as they
    were and starts no thread.  In no case does [init] publish a pose or
    operate on the mutex. *)
Theorem init_starts_thread_iff_true hw nh w :
  (fst (init hw nh w) = Done true ->
   m_adapter_thread (self (snd (init hw nh w))) = true /\
   m_mutex (self (snd (init hw nh w))) = m_mutex (self w) /\
   exists evs, trace (snd (init hw nh w)) = trace w ++ evs /\
               thread_starts evs = 1%nat /\
               poses evs = [] /\ mutex_ops evs = []) /\
  (fst (init hw nh w) <> Done true ->
   init_left_alone w (snd (init hw nh w))).
Proof.
  split; [|apply init_failure_frame].
  destruct (init hw nh w) as [o w1] eqn:Hinit. cbn. intros ->.
  destruct (init_inv _ _ _ _ Hinit)
    as (desc & base & tip & model & tree & chain & names & hs & _ & _ & _
        & _ & _ & _ & _ & _ & ->).
  split; [reflexivity|]. split; [reflexivity|].
  cbn. eexists. split; [reflexivity|].
  unfold advertised.
  destruct (getParam_string nh "target_frame_topic"); cbn; auto.
Qed.

(** X3: the three names are read in the order description, base link,
    end effector link, and the first one missing ends [init]: it returns
    [false] after one error message that names the key, nothing is
    advertised, and of the controller only the names read before it have
    changed. *)
Theorem init_stops_at_first_missing_name hw nh w :
  (getParam_string nh "/robot_description" = None ->
   init hw nh w =
     (Done false,
      with_trace
        (trace w ++ [EvLog Error
           "Failed to load '/robot_description' from parameter server"]) w)) /\
  (forall desc,
     getParam_string nh "/robot_description" = Some desc ->
     getParam_string nh "robot_base_link" = None ->
     init hw nh w =
       (Done false,
        with_trace
          (trace w ++ [EvLog Error
             ("Failed to load " +:+ getNamespace nh +:+ "/robot_base_link"
              +:+ " from parameter server")]) w)) /\
  (forall desc base,
     getParam_string nh "/robot_description" = Some desc ->
     getParam_string nh "robot_base_link" = Some base ->
     getParam_string nh "end_effector_link" = None ->
     init hw nh w =
       (Done false,
        with_trace
          (trace w ++ [EvLog Error
             ("Failed to load " +:+ getNamespace nh +:+ "/end_effector_link"
              +:+ " from parameter server")])
          (with_self (set_robot_base_link base (self w)) w))).
Proof.
  repeat split.
  - intros Hd. unfold init. rewrite Hd. reflexivity.
  - intros desc Hd Hb. unfold init. rewrite Hd, Hb. reflexivity.
  - intros desc base Hd Hb Ht. unfold init. rewrite Hd, Hb, Ht. reflexivity.
Qed.

(** X4: when everything else is in order and the hardware interface lacks
    a handle for one of the configured joints, [init] throws the exception
    of [getHandle] for the first such joint.  The handles of the joints
    before it have been appended to the controller by then, the publisher
    is advertised and the chain stored; the joint buffers are not sized and
    no thread is started. *)
Theorem init_throws_at_first_missing_joint
  hw nh w desc base tip model tree chain names name :
  getParam_string nh "/robot_description" = Some desc ->
  getParam_string nh "robot_base_link" = Some base ->
  getParam_string nh "end_effector_link" = Some tip ->
  initString desc = Some model ->
  treeFromUrdfModel model = Some tree ->
  getChain tree base tip = Some chain ->
  getParam_strings nh "joints" = Some names ->
  first_missing hw names = Some name ->
  fst (init hw nh w) = Stopped (Throw (HardwareInterfaceException name)) /\
  (exists before after,
     names = before ++ name :: after /\
     getHandle hw name = None /\
     mapM (getHandle hw) before = Some (pushed hw names)) /\
  m_joint_state_handles (self (snd (init hw nh w))) =
    m_joint_state_handles (self w) ++ pushed hw names /\
  m_joint_names (self (snd (init hw nh w))) = names /\
  m_robot_chain (self (snd (init hw nh w))) = chain /\
  m_pose_publisher (self (snd (init hw nh w))) = Some (publisher_of nh) /\
  init_left_alone w (snd (init hw nh w)).
Proof.
  intros Hd Hb Ht Hm Htr Hc Hn Hmiss.
  assert (fst (init hw nh w) =
          Stopped (Throw (HardwareInterfaceException name)) /\
          m_joint_state_handles (self (snd (init hw nh w))) =
            m_joint_state_handles (self w) ++ pushed hw names /\
          m_joint_names (self (snd (init hw nh w))) = names /\
          m_robot_chain (self (snd (init hw nh w))) = chain /\
          m_pose_publisher (self (snd (init hw nh w))) =
            Some (publisher_of nh)) as (Hout & Hhs & Hnames & Hchain & Hpub).
  { unfold init, publisher_of, topic_of. rewrite Hd, Hb, Ht.
    destruct (getParam_string nh "target_frame_topic") as [topic|];
      prog_unfold; cbn; rewrite Hm, Htr; cbn; rewrite Hc, Hn; cbn;
      rewrite get_handles_eq, Hmiss; cbn; auto. }
  split; [exact Hout|].
  split; [apply first_missing_Some; exact Hmiss|].
  repeat (split; [assumption|]).
  apply init_failure_frame. rewrite Hout. discriminate.
Qed.

(** X5: [init] appends to the handles the controller already holds and
    sizes the buffers by their total.  On a controller that holds [k]
    handles it leaves [k + n] handles and buffers of [k + n] zeros for [n]
    configured joints; a second [init] with the same inputs succeeds again
    and leaves twice the handles for the same [n] names. *)
Theorem init_appends_handles hw nh w w1 :
  init hw nh w = (Done true, w1) ->
  exists names hs,
    getParam_strings nh "joints" = Some names /\
    mapM (getHandle hw) names = Some hs /\
    length hs = length names /\
    m_joint_names (self w1) = names /\
    m_joint_state_handles (self w1) = m_joint_state_handles (self w) ++ hs /\
    m_positions (self w1) =
      replicate (length (m_joint_state_handles (self w)) + length names)
        scalar_zero /\
    m_velocities (self w1) =
      replicate (length (m_joint_state_handles (self w)) + length names)
        scalar_zero /\
    exists w2,
      init hw nh w1 = (Done true, w2) /\
      m_joint_names (self w2) = names /\
      m_joint_state_handles (self w2) =
        m_joint_state_handles (self w) ++ hs ++ hs /\
      length (m_positions (self w2)) =
        (length (m_joint_state_handles (self w)) + 2 * length names)%nat.
Proof.
  intros Hinit.
  destruct (init_inv _ _ _ _ Hinit)
    as (desc & base & tip & model & tree & chain & names & hs
        & Hd & Hb & Ht & Hm & Htr & Hc & Hn & Hh & ->).
  pose proof (length_mapM _ _ _ Hh) as Hlen.
  exists names, hs. cbn.
  rewrite !length_app, <- Hlen.
  repeat (split; [first [assumption | reflexivity | congruence]|]).
  eexists. split; [eapply init_run; eassumption|].
  cbn. rewrite length_replicate, !length_app, <- app_assoc.
  repeat split. lia.
Qed.

(** ** More about runs *)

Lemma replay_app tr1 : forall h tr2,
  replay h (tr1 ++ tr2) =
    match replay h tr1 with
    | Some h' => replay h' tr2
    | None => None
    end.
Proof.
  induction tr1 as [|e tr1 IH]; intros h tr2; [reflexivity|].
  destruct e; cbn; try apply IH.
  destruct op as [|[|]|], h as [t'|]; try reflexivity; try apply IH.
  destruct (decide (t = t')); [apply IH | reflexivity].
Qed.

Lemma step_replay l w w' :
  step l w = Some w' ->
  exists evs, trace w' = trace w ++ evs /\
              replay (holder w) evs = Some (holder w').
Proof.
  intros Hstep.
  destruct w as [c ck okv js tr].
  destruct c as [cbase ctip ctopic cpub cchain cnames chandles cpos cvel cad ccm cthr cfk cmtx]. unfold holder in *.
  destruct l; cbn in Hstep; unfold holder in Hstep; cbn in Hstep.
  - case_decide; [discriminate|].
    unfold exec, try_lock in Hstep. cbn in Hstep.
    destruct cmtx; injection Hstep as <-; cbn;
      (eexists; split; [reflexivity|]); reflexivity.
  - case_decide as Hh; [|discriminate]. subst.
    unfold exec in Hstep. revert Hstep. prog_unfold. cbn.
    destruct cfk; cbn; [|discriminate].
    destruct cpub; cbn; intros [= <-]; cbn;
      rewrite <- ?app_assoc; (eexists; split; [reflexivity|]); reflexivity.
  - case_decide; [discriminate|].
    destruct (cthr && okv); [|discriminate].
    unfold exec in Hstep. revert Hstep. prog_unfold. cbn.
    destruct cad; cbn; [|discriminate].
    destruct ccm; cbn; [|discriminate].
    unfold try_lock. cbn.
    destruct cmtx; cbn; intros [= <-]; cbn;
      rewrite <- ?app_assoc; (eexists; split; [reflexivity|]); reflexivity.
  - case_decide as Hh; [|discriminate]. subst.
    unfold exec in Hstep. revert Hstep. prog_unfold. cbn.
    destruct cad; cbn; [|discriminate].
    intros [= <-]; cbn.
    rewrite <- ?app_assoc. (eexists; split; [reflexivity|]); reflexivity.
  - injection Hstep as <-. cbn. exists []. rewrite app_nil_r. auto.
  - injection Hstep as <-. cbn. exists []. rewrite app_nil_r. auto.
  - destruct ccm; [|discriminate].
    injection Hstep as <-. cbn. exists []. rewrite app_nil_r. auto.
  - injection Hstep as <-. cbn. exists []. rewrite app_nil_r. auto.
Qed.

(** X6: the mutex operations of any run of the two contexts keep the
    discipline of a mutex: it is acquired only when free, a [try_lock]
    fails only when it is held, and it is released only by its holder; so
    the guarded blocks of [update] and of the adapter loop never overlap. *)
Theorem run_keeps_mutex_discipline ls : forall w w',
  run ls w = Some w' ->
  exists evs, trace w' = trace w ++ evs /\
              replay (holder w) evs = Some (holder w').
Proof.
  induction ls as [|l ls IH]; cbn [run]; intros w w' Hrun.
  - injection Hrun as <-. exists []. rewrite app_nil_r. auto.
  - destruct (step l w) as [w1|] eqn:Hstep; [|discriminate].
    destruct (step_replay _ _ _ Hstep) as (evs1 & Htr1 & Hre1).
    destruct (IH _ _ Hrun) as (evs2 & Htr2 & Hre2).
    exists (evs1 ++ evs2). split.
    + rewrite Htr2, Htr1, app_assoc. reflexivity.
    + rewrite replay_app, Hre1. exact Hre2.
Qed.

Lemma step_same_setup l w w' :
  step l w = Some w' -> same_setup (self w) (self w').
Proof.
  intros Hstep. unfold same_setup.
  destruct w as [c ck okv js tr].
  destruct c as [cbase ctip ctopic cpub cchain cnames chandles cpos cvel cad
                 ccm cthr cfk cmtx].
  destruct l; cbn in Hstep; unfold holder in Hstep; cbn in Hstep.
  - case_decide; [discriminate|].
    unfold exec, try_lock in Hstep. cbn in Hstep.
    destruct cmtx; injection Hstep as <-; cbn; auto 12.
  - case_decide; [|discriminate].
    unfold exec in Hstep. revert Hstep. prog_unfold. cbn.
    destruct cfk; cbn; [|discriminate].
    destruct cpub; cbn; intros [= <-]; cbn; auto 12.
  - case_decide; [discriminate|].
    destruct (cthr && okv); [|discriminate].
    unfold exec in Hstep. revert Hstep. prog_unfold. cbn.
    destruct cad; cbn; [|discriminate].
    destruct ccm; cbn; [|discriminate].
    unfold try_lock. cbn.
    destruct cmtx; cbn; intros [= <-]; cbn; auto 12.
  - case_decide; [|discriminate].
    unfold exec in Hstep. revert Hstep. prog_unfold. cbn.
    destruct cad; cbn; [|discriminate].
    intros [= <-]; cbn; auto 12.
  - injection Hstep as <-. cbn. auto 12.
  - injection Hstep as <-. cbn. auto 12.
  - destruct ccm; [|discriminate].
    injection Hstep as <-. cbn. auto 12.
  - injection Hstep as <-. cbn. auto 12.
Qed.

Lemma same_setup_refl c : same_setup c c.
Proof. unfold same_setup. auto 12. Qed.

Lemma same_setup_trans c1 c2 c3 :
  same_setup c1 c2 -> same_setup c2 c3 -> same_setup c1 c3.
Proof.
  unfold same_setup. intros H12 H23.
  destruct H12 as (?&?&?&?&?&?&?&?&?&?), H23 as (?&?&?&?&?&?&?&?&?&?).
  repeat split; congruence.
Qed.

Lemma run_same_setup ls : forall w w',
  run ls w = Some w' -> same_setup (self w) (self w').
Proof.
  induction ls as [|l ls IH]; cbn [run]; intros w w' Hrun.
  - injection Hrun as <-. apply same_setup_refl.
  - destruct (step l w) as [w1|] eqn:Hstep; [|discriminate].
    eapply same_setup_trans; [eapply step_same_setup; eassumption|].
    apply IH. exact Hrun.
Qed.

(** X7: what [init] has set up is never written again.  Over any run
    after a successful [init] the link names, the topic and its publisher,
    the chain and its solver, the joint names and their handles stay as
    [init] left them, and the velocities stay the zeros [init] filled in:
    only the positions, the adapter, the manager and the mutex move. *)
Theorem setup_is_read_only hw nh w0 w1 ls w :
  init hw nh w0 = (Done true, w1) ->
  run ls w1 = Some w ->
  same_setup (self w1) (self w) /\
  m_velocities (self w) =
    replicate (length (m_joint_state_handles (self w))) scalar_zero /\
  m_fk_solver (self w) = Some (m_robot_chain (self w)) /\
  m_pose_publisher (self w) = Some (publisher_of nh) /\
  m_target_frame_topic (self w) = topic_of nh.
Proof.
  intros Hinit Hrun.
  pose proof (run_same_setup _ _ _ Hrun) as Hsame.
  split; [exact Hsame|].
  destruct Hsame as (_ & _ & Htopic & Hpub & Hch & _ & Hhs & Hv & _ & Hfk).
  rewrite Hv, Hhs, Hfk, Hpub, Hch, Htopic.
  destruct (init_inv _ _ _ _ Hinit)
    as (desc & base & tip & model & tree & chain & names & hs & _ & _ & _
        & _ & _ & _ & _ & _ & ->).
  cbn. auto.
Qed.

(** While [update] holds the mutex nothing it reads can change, and while
    the adapter thread holds it nothing is published. *)
Lemma step_while_held t l w w' :
  holder w = Some t ->
  l <> LUpdateLocked ->
  l <> LCycleLocked ->
  step l w = Some w' ->
  holder w' = Some t /\
  m_positions (self w') = m_positions (self w) /\
  poses (trace w') = poses (trace w).
Proof.
  intros Hheld Hnu Hnc Hstep. unfold holder in *.
  destruct w as [c ck okv js tr].
  destruct c as [cbase ctip ctopic cpub cchain cnames chandles cpos cvel cad
                 ccm cthr cfk cmtx].
  cbn in Hheld. subst cmtx.
  destruct l; try congruence; cbn in Hstep; unfold holder in Hstep;
    cbn in Hstep.
  - case_decide; [discriminate|].
    unfold exec, try_lock in Hstep. cbn in Hstep.
    injection Hstep as <-. cbn. rewrite poses_app. cbn.
    rewrite app_nil_r. auto.
  - case_decide; [discriminate|].
    destruct (cthr && okv); [|discriminate].
    unfold exec in Hstep. revert Hstep. prog_unfold. cbn.
    destruct cad; cbn; [|discriminate].
    destruct ccm; cbn; [|discriminate].
    unfold try_lock. cbn. intros [= <-]. cbn.
    rewrite !poses_app. cbn. rewrite !app_nil_r. auto.
  - injection Hstep as <-. cbn. auto.
  - injection Hstep as <-. cbn. auto.
  - destruct ccm; [|discriminate].
    injection Hstep as <-. cbn. auto.
  - injection Hstep as <-. cbn. auto.
Qed.

(** X8: from the moment a context has taken the mutex until it runs its
    guarded block, whatever the other context and the environment do, the
    mutex stays with it, the shared positions do not change and no pose is
    published: [update] computes its pose from the positions as they were
    when it took the mutex, and the adapter thread writes into a buffer
    nobody is reading. *)
Theorem buffer_stable_while_held t ls : forall w w',
  holder w = Some t ->
  Forall (fun l => l <> LUpdateLocked /\ l <> LCycleLocked) ls ->
  run ls w = Some w' ->
  holder w' = Some t /\
  m_positions (self w') = m_positions (self w) /\
  poses (trace w') = poses (trace w).
Proof.
  induction ls as [|l ls IH]; cbn [run]; intros w w' Hheld Hls Hrun.
  - injection Hrun as <-. auto.
  - destruct (step l w) as [w1|] eqn:Hstep; [|discriminate].
    inversion Hls as [|? ? [Hnu Hnc] Hls']; subst.
    destruct (step_while_held _ _ _ _ Hheld Hnu Hnc Hstep) as (Hh1 & Hp1 & Ht1).
    destruct (IH _ _ Hh1 Hls' Hrun) as (Hh2 & Hp2 & Ht2).
    repeat split; congruence.
Qed.

(** ** Whole ticks in a configured controller *)

Lemma sleeps_app tr1 tr2 : sleeps (tr1 ++ tr2) = (sleeps tr1 + sleeps tr2)%nat.
Proof.
  induction tr1 as [|e tr1 IH]; [reflexivity|].
  destruct e; cbn; rewrite ?IH; reflexivity.
Qed.

Lemma reads_app tr1 tr2 : reads (tr1 ++ tr2) = (reads tr1 + reads tr2)%nat.
Proof.
  induction tr1 as [|e tr1 IH]; [reflexivity|].
  destruct e; cbn; rewrite ?IH; reflexivity.
Qed.

Lemma publications_app tr1 tr2 :
  publications (tr1 ++ tr2) = publications tr1 ++ publications tr2.
Proof.
  induction tr1 as [|e tr1 IH]; [reflexivity|].
  destruct e; cbn; rewrite ?IH; reflexivity.
Qed.

Lemma update_configured base chain pub n time period w :
  configured base chain pub n (self w) ->
  exists w',
    update time period w = (Done tt, w') /\
    configured base chain pub n (self w') /\
    holder w' = holder w /\
    m_positions (self w') = m_positions (self w) /\
    ros_ok w' = ros_ok w.
Proof.
  intros Hconf.
  pose proof Hconf as (Hb & Hch & Hfk & Hpub & Hp & Hv & Had & Hcm).
  destruct (decide (holder w = None)) as [Hh|Hh].
  - eexists. split; [apply (update_acquired _ _ _ _ _ Hh Hpub Hfk)|].
    unfold holder in *. cbn. auto.
  - eexists. split; [apply (update_contended _ _ _ Hh)|].
    unfold holder in *. cbn. auto.
Qed.

Lemma cycle_configured base chain pub n w :
  configured base chain pub n (self w) ->
  exists w',
    cycle w = (Done tt, w') /\
    configured base chain pub n (self w') /\
    holder w' = holder w /\
    ros_ok w' = ros_ok w /\
    poses (trace w') = poses (trace w) /\
    sleeps (trace w') = S (sleeps (trace w)) /\
    reads (trace w') = S (reads (trace w)).
Proof.
  intros (Hb & Hch & Hfk & Hpub & Hp & Hv & (a & Ha & Hcmd) & [cm Hcm]).
  pose proof (length_adapter_stepped w a cm) as Hl. rewrite Hcmd in Hl.
  destruct (decide (holder w = None)) as [Hh|Hh].
  - eexists. split; [apply (cycle_acquired _ _ _ Ha Hcm Hh)|].
    unfold holder in *. cbn.
    rewrite poses_app, sleeps_app, reads_app. cbn. rewrite app_nil_r.
    split; [unfold configured; cbn; eauto 12|].
    repeat split; first [reflexivity | lia].
  - eexists. split; [apply (cycle_contended _ _ _ Ha Hcm Hh)|].
    unfold holder in *. cbn.
    rewrite poses_app, sleeps_app, reads_app. cbn. rewrite app_nil_r.
    split; [unfold configured; cbn; eauto 12|].
    repeat split; first [reflexivity | lia].
Qed.

(** X9: in every world reached from a successful [init], a call of
    [update] and a turn of the adapter loop each run to their end, since
    every pointer they go through has been set, and each gives the mutex
    back if it took it: its holder is afterwards who it was before. *)
Theorem ticks_complete_and_release hw nh w0 w1 ls w time period :
  init hw nh w0 = (Done true, w1) ->
  run ls w1 = Some w ->
  (exists w', update time period w = (Done tt, w') /\ holder w' = holder w) /\
  (exists w', cycle w = (Done tt, w') /\ holder w' = holder w).
Proof.
  intros Hinit Hrun.
  destruct (init_configured _ _ _ _ Hinit) as (base & _ & Hconf).
  pose proof (run_configured _ _ _ _ _ _ _ Hconf Hrun) as Hc.
  split.
  - destruct (update_configured _ _ _ _ time period _ Hc)
      as (w' & Hu & _ & Hh & _).
    eauto.
  - destruct (cycle_configured _ _ _ _ _ Hc) as (w' & Hcy & _ & Hh & _).
    eauto.
Qed.

(** X10: a turn of the adapter loop and a call of [update] that both get
    the mutex carry the commands of the nested controllers through to the
    topic: the pose published is the forward kinematics of the commands
    the manager's [update] produced from the joint states read in that
    turn, and these commands are what the shared buffer then holds. *)
Theorem cycle_then_update_publishes_commands
  hw nh w0 w1 ls w time period :
  init hw nh w0 = (Done true, w1) ->
  run ls w1 = Some w ->
  holder w = None ->
  exists a cm wc w' msg,
    m_controller_adapter (self w) = Some a /\
    m_controller_manager (self w) = Some cm /\
    cycle w = (Done tt, wc) /\
    update time period wc = (Done tt, w') /\
    m_positions (self w') =
      imap (snd (ControllerManager_update (clock w) 10000000
                   (map (fun h => default JointState_zero
                                    (joints w !! h_slot h)) (a_handles a))
                   cm))
           (a_cmd a) /\
    poses (trace w') = poses (trace w) ++ [msg] /\
    position (pose msg) =
      p (solve_fk (m_robot_chain (self w)) (m_positions (self w'))) /\
    orientation (pose msg) =
      GetQuaternion
        (M (solve_fk (m_robot_chain (self w)) (m_positions (self w')))).
Proof.
  intros Hinit Hrun Hfree.
  destruct (init_configured _ _ _ _ Hinit) as (base & _ & Hconf).
  pose proof (run_configured _ _ _ _ _ _ _ Hconf Hrun)
    as (Hb & Hch & Hfk & Hpub & Hp & Hv & (a & Ha & Hcmd) & [cm Hcm]).
  exists a, cm. eexists _, _, _.
  split; [exact Ha|]. split; [exact Hcm|].
  split; [apply (cycle_acquired _ _ _ Ha Hcm Hfree)|].
  split.
  { apply update_acquired with (pub := publisher_of nh)
                                (chain := m_robot_chain (self w1));
      unfold holder in *; cbn; assumption. }
  unfold target_pose_of. cbn. rewrite !poses_app. cbn.
  rewrite app_nil_r, Hch. auto.
Qed.

Lemma adapter_loop_configured base chain pub n turns : forall w,
  configured base chain pub n (self w) ->
  ros_ok w = true ->
  exists w',
    adapter_loop turns w = (Done false, w') /\
    configured base chain pub n (self w') /\
    holder w' = holder w /\
    ros_ok w' = true /\
    poses (trace w') = poses (trace w) /\
    sleeps (trace w') = (sleeps (trace w) + turns)%nat /\
    reads (trace w') = (reads (trace w) + turns)%nat.
Proof.
  induction turns as [|turns IH]; intros w Hconf Hok.
  - exists w. cbn. rewrite Hok. cbn. rewrite !Nat.add_0_r. auto 10.
  - destruct (cycle_configured _ _ _ _ _ Hconf)
      as (wc & Hcy & Hconf' & Hh & Hok' & Hposes & Hsl & Hrd).
    rewrite Hok in Hok'.
    destruct (IH wc Hconf' Hok')
      as (w' & Hloop & Hconf'' & Hh' & Hok'' & Hposes' & Hsl' & Hrd').
    exists w'. cbn [adapter_loop]. rewrite Hok. unfold bind. rewrite Hcy.
    split; [exact Hloop|]. split; [exact Hconf''|].
    repeat split; try assumption; try congruence; lia.
Qed.

(** X11: while [ros::ok()] holds, the adapter loop of a configured
    controller keeps turning: followed for [n] turns it has read the
    hardware [n] times and slept [n] times, whether or not it got the
    mutex, it has published no pose, and it has not left the mutex taken. *)
Theorem adapter_loop_turns hw nh w0 w1 ls w turns :
  init hw nh w0 = (Done true, w1) ->
  run ls w1 = Some w ->
  ros_ok w = true ->
  exists w',
    adapter_loop turns w = (Done false, w') /\
    reads (trace w') = (reads (trace w) + turns)%nat /\
    sleeps (trace w') = (sleeps (trace w) + turns)%nat /\
    poses (trace w') = poses (trace w) /\
    holder w' = holder w /\
    length (m_positions (self w')) = length (m_positions (self w)).
Proof.
  intros Hinit Hrun Hok.
  destruct (init_configured _ _ _ _ Hinit) as (base & _ & Hconf).
  pose proof (run_configured _ _ _ _ _ _ _ Hconf Hrun) as Hc.
  destruct (adapter_loop_configured _ _ _ _ turns _ Hc Hok)
    as (w' & Hloop & Hc' & Hh & _ & Hposes & Hsl & Hrd).
  exists w'. repeat split; try assumption.
  destruct Hc as (_ & _ & _ & _ & Hp & _), Hc' as (_ & _ & _ & _ & Hp' & _).
  congruence.
Qed.

(** X12: started when [ros::ok()] is already false, the adapter thread
    starts and stops its spinner and does nothing else: the adapter is not
    read, the manager not stepped, the mutex not tried. *)
Theorem adapter_thread_after_shutdown n w :
  ros_ok w = false ->
  adapter_thread n w =
    (Done tt, with_trace (trace w ++ [EvSpinner true; EvSpinner false]) w).
Proof.
  intros Hok. unfold adapter_thread, bind, emit. cbn.
  destruct n; cbn; rewrite Hok; cbn; rewrite <- app_assoc; reflexivity.
Qed.

Lemma step_publications base chain pub n l w w' :
  configured base chain pub n (self w) ->
  step l w = Some w' ->
  exists evs, trace w' = trace w ++ evs /\
              Forall (pose_of_chain base chain pub n) (publications evs).
Proof.
  intros (Hb & Hch & Hfk & Hpub & Hp & Hv & (a & Ha & Hcmd) & [cm Hcm]) Hstep.
  destruct l; cbn in Hstep.
  - case_decide; [discriminate|].
    apply exec_Some in Hstep as [b Hstep].
    destruct (decide (holder w = None)) as [Hh|Hh].
    + rewrite try_lock_free in Hstep by assumption.
      injection Hstep as _ <-. cbn. eexists. split; [reflexivity|].
      cbn. constructor.
    + rewrite try_lock_held in Hstep by assumption.
      injection Hstep as _ <-. cbn. eexists. split; [reflexivity|].
      cbn. constructor.
  - case_decide; [|discriminate].
    apply exec_Some in Hstep as [b Hstep].
    revert Hstep. prog_unfold. rewrite Hfk, Hpub. cbn.
    intros [= _ <-]. cbn. rewrite <- app_assoc. cbn.
    eexists. split; [reflexivity|]. cbn.
    constructor; [|constructor].
    unfold pose_of_chain. cbn. repeat split; try assumption.
    exists (m_positions (self w)). auto.
  - case_decide; [discriminate|].
    destruct (m_adapter_thread (self w) && ros_ok w); [|discriminate].
    apply exec_Some in Hstep as [b Hstep].
    revert Hstep. unfold bind at 1. rewrite (cycle_head_run _ _ _ Ha Hcm).
    destruct (decide (holder w = None)) as [Hh|Hh].
    + rewrite try_lock_free by exact Hh.
      prog_unfold. cbn. intros [= _ <-]. cbn. rewrite <- app_assoc. cbn.
      eexists. split; [reflexivity|]. cbn. constructor.
    + rewrite try_lock_held by exact Hh.
      prog_unfold. cbn. intros [= _ <-]. cbn. rewrite <- !app_assoc. cbn.
      eexists. split; [reflexivity|]. cbn. constructor.
  - case_decide; [|discriminate].
    apply exec_Some in Hstep as [b Hstep].
    revert Hstep. prog_unfold. rewrite Ha. cbn.
    intros [= _ <-]. cbn. rewrite <- !app_assoc. cbn.
    eexists. split; [reflexivity|]. cbn. constructor.
  - injection Hstep as <-. exists []. cbn. rewrite app_nil_r.
    split; [reflexivity | constructor].
  - injection Hstep as <-. exists []. cbn. rewrite app_nil_r.
    split; [reflexivity | constructor].
  - rewrite Hcm in Hstep. injection Hstep as <-. exists []. cbn.
    rewrite app_nil_r. split; [reflexivity | constructor].
  - injection Hstep as <-. exists []. cbn. rewrite app_nil_r.
    split; [reflexivity | constructor].
Qed.

Lemma run_publications base chain pub n ls : forall w w',
  configured base chain pub n (self w) ->
  run ls w = Some w' ->
  exists evs, trace w' = trace w ++ evs /\
              Forall (pose_of_chain base chain pub n) (publications evs).
Proof.
  induction ls as [|l ls IH]; cbn [run]; intros w w' Hconf Hrun.
  - injection Hrun as <-. exists []. rewrite app_nil_r.
    split; [reflexivity | constructor].
  - destruct (step l w) as [w1|] eqn:Hstep; [|discriminate].
    destruct (step_publications _ _ _ _ _ _ _ Hconf Hstep)
      as (evs1 & Htr1 & Hall1).
    pose proof (step_configured _ _ _ _ _ _ _ Hconf Hstep) as Hconf1.
    destruct (IH _ _ Hconf1 Hrun) as (evs2 & Htr2 & Hall2).
    exists (evs1 ++ evs2). split.
    + rewrite Htr2, Htr1, app_assoc. reflexivity.
    + rewrite publications_app. apply Forall_app. auto.
Qed.

(** X13: every message published in a run after a successful [init] goes
    out on the publisher [init] advertised, carries the configured base
    link as its frame id, and holds the pose of the configured chain at
    some vector of as many joint positions as there are handles. *)
Theorem all_publications_use_setup hw nh w0 w1 ls w :
  init hw nh w0 = (Done true, w1) ->
  run ls w1 = Some w ->
  exists base evs,
    getParam_string nh "robot_base_link" = Some base /\
    trace w = trace w1 ++ evs /\
    Forall (pose_of_chain base (m_robot_chain (self w1)) (publisher_of nh)
              (length (m_joint_state_handles (self w1))))
           (publications evs).
Proof.
  intros Hinit Hrun.
  destruct (init_configured _ _ _ _ Hinit) as (base & Hbase & Hconf).
  destruct (run_publications _ _ _ _ _ _ _ Hconf Hrun) as (evs & Htr & Hall).
  exists base, evs. auto.
Qed.

End Properties.

(** * The statements at work on the demonstration robot *)

Section Instances.
Import Demo.

Lemma update_publishes_fk_pose_witness :
  init hw nh w0 = (Done true, w1) /\
  run [LCycle; LCycleLocked] w1 = Some w_written /\
  fst (try_lock Outer w_written) = Done true /\
  exists msg w',
    update 5 6 w_written = (Done tt, w') /\
    trace w' = trace w_written ++ [EvMutex Outer (MTryLock true);
                                   EvPublish (publisher_of nh) msg;
                                   EvMutex Outer MUnlock] /\
    poses (trace w') = poses (trace w_written) ++ [msg] /\
    getParam_string nh "robot_base_link" = Some (frame_id (header msg)) /\
    m_fk_solver (self w_written) = Some (m_robot_chain (self w_written)) /\
    position (pose msg) =
      p (solve_fk (m_robot_chain (self w_written))
           (m_positions (self w_written))) /\
    orientation (pose msg) =
      GetQuaternion
        (M (solve_fk (m_robot_chain (self w_written))
              (m_positions (self w_written)))) /\
    stamp (header msg) = clock w_written.
Proof.
  assert (init hw nh w0 = (Done true, w1)) as H1 by (vm_compute; reflexivity).
  assert (run [LCycle; LCycleLocked] w1 = Some w_written) as H2
    by (vm_compute; reflexivity).
  assert (fst (try_lock Outer w_written) = Done true) as H3
    by (vm_compute; reflexivity).
  split; [exact H1|]. split; [exact H2|]. split; [exact H3|].
  exact (update_publishes_fk_pose hw nh w0 w1 [LCycle; LCycleLocked]
           w_written 5 6 H1 H2 H3).
Defined.

Lemma update_skips_when_contended_witness :
  fst (try_lock Outer w_inner_holds) = Done false /\
  holder w1 <> Some Outer /\
  run [LCycle; LUpdate 5 6; LCycleLocked; LUpdate 7 8; LUpdateLocked] w1
    <> None /\
  poses (trace (snd (update 5 6 w_inner_holds))) = poses (trace w_inner_holds) /\
  forall w',
    run [LCycle; LUpdate 5 6; LCycleLocked; LUpdate 7 8; LUpdateLocked] w1
      = Some w' ->
    (length (poses (trace w')) <= length (poses (trace w1)) + 2)%nat.
Proof.
  assert (fst (try_lock Outer w_inner_holds) = Done false) as H1
    by (vm_compute; reflexivity).
  assert (holder w1 <> Some Outer) as H2 by (vm_compute; discriminate).
  split; [exact H1|]. split; [exact H2|].
  split; [vm_compute; discriminate|].
  destruct (update_skips_when_contended (E := externals)) as [Htick Hrun].
  split; [apply (Htick w_inner_holds 5 6 H1)|].
  intros w' Hw'.
  exact (Hrun [LCycle; LUpdate 5 6; LCycleLocked; LUpdate 7 8; LUpdateLocked]
           w1 w' H2 Hw').
Defined.

Lemma cycle_keeps_buffer_when_contended_witness :
  fst (cycle_head w_outer_holds) = Done false /\
  exists w',
    cycle w_outer_holds = (Done tt, w') /\
    m_positions (self w') = m_positions (self w_outer_holds) /\
    m_velocities (self w') = m_velocities (self w_outer_holds) /\
    trace w' = trace w_outer_holds
               ++ [EvAdapterRead;
                   EvManagerUpdate (clock w_outer_holds) (expectedCycleTime rate);
                   EvMutex Inner (MTryLock false);
                   EvSleep (expectedCycleTime rate)].
Proof.
  assert (fst (cycle_head w_outer_holds) = Done false) as H1
    by (vm_compute; reflexivity).
  split; [exact H1|].
  exact (cycle_keeps_buffer_when_contended w_outer_holds H1).
Defined.

Lemma cycle_order_witness :
  exists a cm,
    m_controller_adapter (self w1) = Some a /\
    m_controller_manager (self w1) = Some cm /\
    exists w',
      cycle w1 = (Done tt, w') /\
      trace w' =
        trace w1
        ++ [EvAdapterRead; EvManagerUpdate (clock w1) 10000000]
        ++ (if bool_decide (holder w1 = None)
            then [EvMutex Inner (MTryLock true); EvAdapterWrite;
                  EvMutex Inner MUnlock]
            else [EvMutex Inner (MTryLock false)])
        ++ [EvSleep 10000000] /\
      m_controller_adapter (self w') = Some (adapter_stepped w1 a cm) /\
      a_states (adapter_stepped w1 a cm) =
        map (fun h => default JointState_zero (joints w1 !! h_slot h))
            (a_handles a) /\
      m_controller_manager (self w') =
        Some (fst (ControllerManager_update (clock w1) 10000000
                     (a_states (adapter_stepped w1 a cm)) cm)) /\
      (holder w1 = None ->
       m_positions (self w') = a_cmd (adapter_stepped w1 a cm)) /\
      (forall n, ros_ok w1 = true ->
         adapter_loop (S n) w1 = adapter_loop n w').
Proof.
  eexists _, _.
  assert (m_controller_adapter (self w1) =
          Some (JointControllerAdapter_new
                  [{| h_name := "slide_a"; h_slot := 0 |};
                   {| h_name := "slide_b"; h_slot := 1 |}] nh)) as H1
    by (vm_compute; reflexivity).
  assert (m_controller_manager (self w1) = Some O) as H2
    by (vm_compute; reflexivity).
  split; [exact H1|]. split; [exact H2|].
  exact (cycle_order w1 _ _ H1 H2).
Defined.

Lemma try_lock_only_witness :
  configured (E := externals) "base_link" ("base_link", "tool0")
    (publisher_of nh) 2 (self w_inner_holds) /\
  m_adapter_thread (self w_inner_holds) = true /\
  ros_ok w_inner_holds = true /\
  (is_Some (step (LUpdate 5 6) w_inner_holds) \/
   is_Some (step LUpdateLocked w_inner_holds)) /\
  (is_Some (step LCycle w_inner_holds) \/
   is_Some (step LCycleLocked w_inner_holds)).
Proof.
  assert (configured (E := externals) "base_link" ("base_link", "tool0")
            (publisher_of nh) 2 (self w_inner_holds)) as H1.
  { unfold configured. repeat split; try (vm_compute; reflexivity).
    - eexists. split; vm_compute; reflexivity.
    - eexists. vm_compute. reflexivity. }
  assert (m_adapter_thread (self w_inner_holds) = true) as H2
    by (vm_compute; reflexivity).
  assert (ros_ok w_inner_holds = true) as H3 by (vm_compute; reflexivity).
  split; [exact H1|]. split; [exact H2|]. split; [exact H3|].
  destruct (try_lock_only (E := externals)) as (_ & _ & Hstep).
  destruct (Hstep _ _ _ _ w_inner_holds 5 6 H1) as [Hout Hin].
  split; [exact Hout | exact (Hin H2 H3)].
Defined.

Lemma init_fails_without_mandatory_witness :
  nh_params nh_no_joints !! "joints" = None /\
  init_failed (init hw nh_no_joints w0) /\
  fst (init hw nh_no_joints w0) <> Done true /\
  not_started w0 (snd (init hw nh_no_joints w0)).
Proof.
  assert (nh_params nh_no_joints !! "joints" = None) as H1
    by (vm_compute; reflexivity).
  split; [exact H1|].
  apply (init_fails_without_mandatory hw nh_no_joints w0).
  right. right. right. exact H1.
Defined.

(** C7 as it stands fails on a description that is not urdf: [init] logs
    the error and returns [false]; nothing is thrown. *)
Lemma bad_urdf_returns_false :
  model_unresolved (E := externals) nh_bad_urdf /\
  fst (init hw nh_bad_urdf w0) = Done false /\
  ~ model_failure_throws hw nh_bad_urdf w0.
Proof.
  assert (model_unresolved (E := externals) nh_bad_urdf) as Hbad.
  { exists "not urdf", "base_link", "tool0".
    repeat split; vm_compute; reflexivity. }
  assert (fst (init hw nh_bad_urdf w0) = Done false) as Hfalse
    by (vm_compute; reflexivity).
  split; [exact Hbad|]. split; [exact Hfalse|].
  intros Hthrows. destruct (Hthrows Hbad) as [e He].
  rewrite Hfalse in He. discriminate.
Defined.

Lemma init_model_failures_witness :
  getParam_string nh_bad_urdf "/robot_description" = Some "not urdf" /\
  getParam_string nh_bad_urdf "robot_base_link" = Some "base_link" /\
  getParam_string nh_bad_urdf "end_effector_link" = Some "tool0" /\
  initString (Externals := externals) "not urdf" = None /\
  fst (init hw nh_bad_urdf w0) = Done false /\
  trace (snd (init hw nh_bad_urdf w0)) =
    trace w0 ++ advertised nh_bad_urdf
    ++ [EvLog Error "Failed to parse urdf model from 'robot_description'"] /\
  getParam_string nh_bad_tip "/robot_description" = Some "<robot/>" /\
  getParam_string nh_bad_tip "robot_base_link" = Some "base_link" /\
  getParam_string nh_bad_tip "end_effector_link" = Some "tool1" /\
  initString (Externals := externals) "<robot/>" = Some tree /\
  treeFromUrdfModel (Externals := externals) tree = Some tree /\
  getChain (Externals := externals) tree "base_link" "tool1" = None /\
  fst (init hw nh_bad_tip w0) =
    Stopped (Throw (runtime_error
      "Failed to parse robot chain from urdf model. Are you sure that both your 'robot_base_link' and 'end_effector_link' exist?")).
Proof.
  assert (getParam_string nh_bad_urdf "/robot_description" = Some "not urdf")
    as G1 by (vm_compute; reflexivity).
  assert (getParam_string nh_bad_urdf "robot_base_link" = Some "base_link")
    as G2 by (vm_compute; reflexivity).
  assert (getParam_string nh_bad_urdf "end_effector_link" = Some "tool0")
    as G3 by (vm_compute; reflexivity).
  assert (initString (Externals := externals) "not urdf" = None) as G4
    by (vm_compute; reflexivity).
  assert (getParam_string nh_bad_tip "/robot_description" = Some "<robot/>")
    as H1 by (vm_compute; reflexivity).
  assert (getParam_string nh_bad_tip "robot_base_link" = Some "base_link")
    as H2 by (vm_compute; reflexivity).
  assert (getParam_string nh_bad_tip "end_effector_link" = Some "tool1")
    as H3 by (vm_compute; reflexivity).
  assert (initString (Externals := externals) "<robot/>" = Some tree) as H4
    by (vm_compute; reflexivity).
  assert (treeFromUrdfModel (Externals := externals) tree = Some tree) as H5
    by reflexivity.
  assert (getChain (Externals := externals) tree "base_link" "tool1" = None)
    as H6 by (vm_compute; reflexivity).
  destruct (init_model_failures hw nh_bad_urdf w0 _ _ _ G1 G2 G3)
    as (Hurdf & _ & _).
  destruct (Hurdf G4) as [Hfalse Hlog].
  destruct (init_model_failures hw nh_bad_tip w0 _ _ _ H1 H2 H3)
    as (_ & _ & Hchain).
  destruct (Hchain tree tree H4 H5 H6) as [Hthrow _].
  repeat (split; [assumption|]). exact Hthrow.
Defined.



Lemma init_deterministic_witness :
  self w0 = self w0_later /\
  init hw nh w0 = (Done true, w1) /\
  exists w1',
    init hw nh w0_later = (Done true, w1') /\
    self w1' = self w1 /\
    m_robot_chain (self w1) = ("base_link", "tool0") /\
    m_joint_state_handles (self w1) =
      [{| h_name := "slide_a"; h_slot := 0 |};
       {| h_name := "slide_b"; h_slot := 1 |}] /\
    m_target_frame_topic (self w1) = "target_frame".
Proof.
  assert (init hw nh w0 = (Done true, w1)) as H1 by (vm_compute; reflexivity).
  split; [reflexivity|]. split; [exact H1|].
  destruct (init_deterministic hw nh w0 w0_later w1 eq_refl H1)
    as (w1' & desc & base & tip & model & tr & chain & names & hs
        & Hrun & Hself & _).
  exists w1'. split; [exact Hrun|]. split; [exact Hself|].
  repeat split; vm_compute; reflexivity.
Defined.

Lemma init_failure_leaves_publisher_witness :
  model_unresolved (E := externals) nh_bad_tip /\
  init_failed (init hw nh_bad_tip w0) /\
  (exists before after,
     trace (snd (init hw nh_bad_tip w0)) =
       trace w0 ++ before ++ [EvAdvertise (publisher_of nh_bad_tip)] ++ after) /\
  m_pose_publisher (self (snd (init hw nh_bad_tip w0))) =
    Some (publisher_of nh_bad_tip) /\
  pub_topic (publisher_of nh_bad_tip) =
    default "target_frame" (getParam_string nh_bad_tip "target_frame_topic").
Proof.
  assert (model_unresolved (E := externals) nh_bad_tip) as H1.
  { exists "<robot/>", "base_link", "tool1".
    repeat split; vm_compute; reflexivity. }
  split; [exact H1|].
  exact (init_failure_leaves_publisher hw nh_bad_tip w0 H1).
Defined.

End Instances.

(** * The further properties on the demonstration robot *)

Section MoreInstances.
Import Demo.

Lemma init_returns_true_iff_witness :
  fst (init hw nh w0) = Done true.
Proof.
  apply (init_returns_true_iff hw nh w0).
  exists "<robot/>", "base_link", "tool0", tree, tree, ("base_link", "tool0"),
    ["slide_a"; "slide_b"],
    [{| h_name := "slide_a"; h_slot := 0 |};
     {| h_name := "slide_b"; h_slot := 1 |}].
  repeat split; vm_compute; reflexivity.
Defined.

Lemma init_starts_thread_iff_true_witness :
  fst (init hw nh w0) = Done true /\
  fst (init hw_one_joint nh w0) <> Done true /\
  m_adapter_thread (self (snd (init hw nh w0))) = true /\
  init_left_alone w0 (snd (init hw_one_joint nh w0)).
Proof.
  assert (fst (init hw nh w0) = Done true) as H1 by (vm_compute; reflexivity).
  assert (fst (init hw_one_joint nh w0) <> Done true) as H2
    by (vm_compute; discriminate).
  split; [exact H1|]. split; [exact H2|].
  split.
  - apply (proj1 (init_starts_thread_iff_true hw nh w0) H1).
  - apply (proj2 (init_starts_thread_iff_true hw_one_joint nh w0) H2).
Defined.

Lemma init_stops_at_first_missing_name_witness :
  getParam_string nh_no_base "/robot_description" = Some "<robot/>" /\
  getParam_string nh_no_base "robot_base_link" = None /\
  init hw nh_no_base w0 =
    (Done false,
     with_trace
       (trace w0 ++ [EvLog Error
          ("Failed to load " +:+ getNamespace nh_no_base +:+ "/robot_base_link"
           +:+ " from parameter server")]) w0).
Proof.
  assert (getParam_string nh_no_base "/robot_description" = Some "<robot/>")
    as H1 by (vm_compute; reflexivity).
  assert (getParam_string nh_no_base "robot_base_link" = None) as H2
    by (vm_compute; reflexivity).
  split; [exact H1|]. split; [exact H2|].
  destruct (init_stops_at_first_missing_name hw nh_no_base w0)
    as (_ & Hbase & _).
  exact (Hbase _ H1 H2).
Defined.

Lemma init_throws_at_first_missing_joint_witness :
  first_missing hw_one_joint ["slide_a"; "slide_b"] = Some "slide_b" /\
  fst (init hw_one_joint nh w0) =
    Stopped (Throw (HardwareInterfaceException "slide_b")) /\
  m_joint_state_handles (self (snd (init hw_one_joint nh w0))) =
    [{| h_name := "slide_a"; h_slot := 0 |}] /\
  m_positions (self (snd (init hw_one_joint nh w0))) = [].
Proof.
  assert (first_missing hw_one_joint ["slide_a"; "slide_b"] = Some "slide_b")
    as Hmiss by (vm_compute; reflexivity).
  split; [exact Hmiss|].
  destruct (init_throws_at_first_missing_joint (E := externals)
              hw_one_joint nh w0 "<robot/>" "base_link" "tool0" tree tree
              ("base_link", "tool0") ["slide_a"; "slide_b"] "slide_b")
    as (Hout & _ & Hhs & _ & _ & _ & Halone);
    try (vm_compute; reflexivity).
  split; [exact Hout|]. split.
  - rewrite Hhs. vm_compute. reflexivity.
  - destruct Halone as (Hp & _). rewrite Hp. reflexivity.
Defined.

Lemma init_appends_handles_witness :
  init hw nh w0 = (Done true, w1) /\
  exists w2,
    init hw nh w1 = (Done true, w2) /\
    m_joint_names (self w2) = ["slide_a"; "slide_b"] /\
    length (m_joint_state_handles (self w2)) = 4%nat /\
    length (m_positions (self w2)) = 4%nat.
Proof.
  assert (init hw nh w0 = (Done true, w1)) as H1 by (vm_compute; reflexivity).
  split; [exact H1|].
  destruct (init_appends_handles hw nh w0 w1 H1)
    as (names & hs & Hn & Hh & _ & _ & _ & _ & _ & w2 & H2 & Hnames & Hhs & Hlen).
  assert (names = ["slide_a"; "slide_b"]) as ->
    by (vm_compute in Hn; congruence).
  assert (hs = [{| h_name := "slide_a"; h_slot := 0 |};
                {| h_name := "slide_b"; h_slot := 1 |}]) as ->
    by (vm_compute in Hh; congruence).
  exists w2. split; [exact H2|]. split; [exact Hnames|].
  split; [rewrite Hhs | rewrite Hlen]; reflexivity.
Defined.

Lemma run_keeps_mutex_discipline_witness :
  run busy_run w1 = Some w_busy /\
  exists evs, trace w_busy = trace w1 ++ evs /\
              replay (holder w1) evs = Some (holder w_busy).
Proof.
  assert (run busy_run w1 = Some w_busy) as H1 by (vm_compute; reflexivity).
  split; [exact H1|].
  exact (run_keeps_mutex_discipline busy_run w1 w_busy H1).
Defined.

Lemma setup_is_read_only_witness :
  init hw nh w0 = (Done true, w1) /\
  run busy_run w1 = Some w_busy /\
  same_setup (self w1) (self w_busy) /\
  m_velocities (self w_busy) = [0; 0].
Proof.
  assert (init hw nh w0 = (Done true, w1)) as H1 by (vm_compute; reflexivity).
  assert (run busy_run w1 = Some w_busy) as H2 by (vm_compute; reflexivity).
  split; [exact H1|]. split; [exact H2|].
  destruct (setup_is_read_only hw nh w0 w1 busy_run w_busy H1 H2)
    as (Hsame & Hvel & _).
  split; [exact Hsame|]. rewrite Hvel. vm_compute. reflexivity.
Defined.

Lemma buffer_stable_while_held_witness :
  holder w_outer_holds = Some Outer /\
  Forall (fun l => l <> LUpdateLocked /\ l <> LCycleLocked) waiting_run /\
  exists w',
    run waiting_run w_outer_holds = Some w' /\
    holder w' = Some Outer /\
    m_positions (self w') = m_positions (self w_outer_holds) /\
    poses (trace w') = poses (trace w_outer_holds).
Proof.
  assert (holder w_outer_holds = Some Outer) as H1
    by (vm_compute; reflexivity).
  assert (Forall (fun l => l <> LUpdateLocked (E := externals)
                           /\ l <> LCycleLocked) waiting_run) as H2
    by (repeat constructor; discriminate).
  split; [exact H1|]. split; [exact H2|].
  exists (default w1 (run waiting_run w_outer_holds)).
  assert (run waiting_run w_outer_holds =
          Some (default w1 (run waiting_run w_outer_holds))) as H3
    by (vm_compute; reflexivity).
  split; [exact H3|].
  exact (buffer_stable_while_held Outer waiting_run w_outer_holds _ H1 H2 H3).
Defined.

Lemma ticks_complete_and_release_witness :
  init hw nh w0 = (Done true, w1) /\
  run [LCycle] w1 = Some w_inner_holds /\
  (exists w', update 5 6 w_inner_holds = (Done tt, w') /\
              holder w' = holder w_inner_holds) /\
  (exists w', cycle w_inner_holds = (Done tt, w') /\
              holder w' = holder w_inner_holds).
Proof.
  assert (init hw nh w0 = (Done true, w1)) as H1 by (vm_compute; reflexivity).
  assert (run [LCycle] w1 = Some w_inner_holds) as H2
    by (vm_compute; reflexivity).
  split; [exact H1|]. split; [exact H2|].
  exact (ticks_complete_and_release hw nh w0 w1 [LCycle] w_inner_holds 5 6
           H1 H2).
Defined.

Lemma cycle_then_update_publishes_commands_witness :
  init hw nh w0 = (Done true, w1) /\
  run [] w1 = Some w1 /\
  holder w1 = None /\
  exists wc w' msg,
    cycle w1 = (Done tt, wc) /\
    update 5 6 wc = (Done tt, w') /\
    m_positions (self w') = [3; 4] /\
    poses (trace w') = poses (trace w1) ++ [msg] /\
    position (pose msg) = (7, 0, 0).
Proof.
  assert (init hw nh w0 = (Done true, w1)) as H1 by (vm_compute; reflexivity).
  assert (holder w1 = None) as H3 by (vm_compute; reflexivity).
  split; [exact H1|]. split; [reflexivity|]. split; [exact H3|].
  destruct (cycle_then_update_publishes_commands hw nh w0 w1 [] w1 5 6
              H1 eq_refl H3)
    as (a & cm & wc & w' & msg & Ha & Hcm & Hcy & Hup & Hpos & Hposes
        & Hp & _).
  exists wc, w', msg.
  assert (m_positions (self w') = [3; 4]) as Hq.
  { rewrite Hpos. vm_compute in Ha. injection Ha as <-.
    vm_compute in Hcm. injection Hcm as <-. vm_compute. reflexivity. }
  repeat (split; [assumption|]).
  rewrite Hp, Hq. vm_compute. reflexivity.
Defined.

Lemma adapter_loop_turns_witness :
  init hw nh w0 = (Done true, w1) /\
  ros_ok w1 = true /\
  exists w',
    adapter_loop 3 w1 = (Done false, w') /\
    reads (trace w') = (reads (trace w1) + 3)%nat /\
    sleeps (trace w') = (sleeps (trace w1) + 3)%nat /\
    poses (trace w') = poses (trace w1) /\
    holder w' = holder w1 /\
    length (m_positions (self w')) = length (m_positions (self w1)).
Proof.
  assert (init hw nh w0 = (Done true, w1)) as H1 by (vm_compute; reflexivity).
  assert (ros_ok w1 = true) as H2 by (vm_compute; reflexivity).
  split; [exact H1|]. split; [exact H2|].
  exact (adapter_loop_turns hw nh w0 w1 [] w1 3 H1 eq_refl H2).
Defined.

Lemma adapter_thread_after_shutdown_witness :
  ros_ok w_shutdown = false /\
  adapter_thread 5 w_shutdown =
    (Done tt,
     with_trace (trace w_shutdown ++ [EvSpinner true; EvSpinner false])
       w_shutdown).
Proof.
  assert (ros_ok w_shutdown = false) as H1 by (vm_compute; reflexivity).
  split; [exact H1|].
  exact (adapter_thread_after_shutdown 5 w_shutdown H1).
Defined.

Lemma all_publications_use_setup_witness :
  init hw nh w0 = (Done true, w1) /\
  run busy_run w1 = Some w_busy /\
  exists base evs,
    getParam_string nh "robot_base_link" = Some base /\
    trace w_busy = trace w1 ++ evs /\
    Forall (pose_of_chain base (m_robot_chain (self w1)) (publisher_of nh)
              (length (m_joint_state_handles (self w1))))
           (publications evs).
Proof.
  assert (init hw nh w0 = (Done true, w1)) as H1 by (vm_compute; reflexivity).
  assert (run busy_run w1 = Some w_busy) as H2 by (vm_compute; reflexivity).
  split; [exact H1|]. split; [exact H2|].
  exact (all_publications_use_setup hw nh w0 w1 busy_run w_busy H1 H2).
Defined.

End MoreInstances.
